(** * Validation schemas of [models.py]

    A shallow embedding of the request and response models of the
    trading-bot backend: every [@validator] method becomes a function
    from the raw field value to a [result], and the pieces of the Python
    runtime the validators call ([str.strip], [str.lower], [str.upper],
    [html.escape], [re.match], [re.search]) are modelled next to them.

    Python strings are sequences of Unicode code points, so a [str] is a
    list of code points and [len] is [length]. *)

From Stdlib Require Import NArith ZArith Lia Bool List Ascii String SpecFloat.
From stdpp Require Import base gmap strings list.

Set Default Proof Using "Type".

(** ** Code points and strings *)

Definition cp := N.
Bind Scope N_scope with cp.
Definition str := list cp.

Definition ord (a : ascii) : cp := N_of_ascii a.

(** An ASCII literal of the source, as a Python string. *)
Definition py (s : string) : str := List.map ord (list_ascii_of_string s).

(** [==] on strings *)
Fixpoint str_eqb (a b : str) : bool :=
  match a, b with
  | [], [] => true
  | x :: a', y :: b' => (x =? y)%N && str_eqb a' b'
  | _, _ => false
  end.

(** [v in l] for a list of strings *)
Definition str_in (v : str) (l : list str) : bool := existsb (str_eqb v) l.

Definition between (lo hi c : cp) : bool := ((lo <=? c) && (c <=? hi))%N.

(** [Py_UNICODE_ISSPACE]: the characters [str.strip()] removes and the
    regex category [\s] matches on a [str] pattern. *)
Definition isspace (c : cp) : bool :=
  between 0x09 0x0D c || between 0x1C 0x1F c || (c =? 0x20)%N
  || (c =? 0x85)%N || (c =? 0xA0)%N || (c =? 0x1680)%N
  || between 0x2000 0x200A c || (c =? 0x2028)%N || (c =? 0x2029)%N
  || (c =? 0x202F)%N || (c =? 0x205F)%N || (c =? 0x3000)%N.

Fixpoint lstrip (s : str) : str :=
  match s with
  | c :: s' => if isspace c then lstrip s' else s
  | [] => []
  end.

Definition rstrip (s : str) : str := rev (lstrip (rev s)).

(** [str.strip()] with no argument. *)
Definition strip (s : str) : str := rstrip (lstrip s).

(** ** Case mapping and decimal digits

    On ASCII the mappings are written out.  Above ASCII they come from
    the interpreter's Unicode database, which is not part of the
    repository: it is taken as a parameter. *)

Class UnicodeData := {
  (** [_PyUnicode_ToLowerFull] on code points from U+0080 on *)
  ucd_tolower_full : cp -> list cp;
  (** [_PyUnicode_ToUpperFull] on code points from U+0080 on *)
  ucd_toupper_full : cp -> list cp;
  (** [handle_capital_sigma]: the lower case of the capital sigma at
      index [i], which depends on the letters around it *)
  ucd_capital_sigma : str -> nat -> cp;
  (** [Py_UNICODE_ISDECIMAL] on code points from U+0080 on *)
  ucd_isdecimal : cp -> bool
}.

Definition is_ascii (c : cp) : bool := (c <? 0x80)%N.

Definition ascii_lower (c : cp) : cp :=
  if between (ord "A") (ord "Z") c then (c + 32)%N else c.

Definition ascii_upper (c : cp) : cp :=
  if between (ord "a") (ord "z") c then (c - 32)%N else c.

Section CaseMapping.
Context {ud : UnicodeData}.

Definition tolower_full (c : cp) : list cp :=
  if is_ascii c then [ascii_lower c] else ucd_tolower_full c.

Definition toupper_full (c : cp) : list cp :=
  if is_ascii c then [ascii_upper c] else ucd_toupper_full c.

Definition lower_ucs4 (whole : str) (i : nat) (c : cp) : list cp :=
  if (c =? 0x3A3)%N then [ucd_capital_sigma whole i] else tolower_full c.

Fixpoint do_lower (whole : str) (i : nat) (s : str) : str :=
  match s with
  | [] => []
  | c :: s' => lower_ucs4 whole i c ++ do_lower whole (S i) s'
  end.

(** [str.lower()] *)
Definition lower (s : str) : str := do_lower s 0 s.

(** [str.upper()] *)
Definition upper (s : str) : str := flat_map toupper_full s.

(** [Py_UNICODE_ISDECIMAL], the regex category [\d] of a [str] pattern *)
Definition isdecimal (c : cp) : bool :=
  if is_ascii c then between (ord "0") (ord "9") c else ucd_isdecimal c.
End CaseMapping.

(** An instance that leaves every code point above ASCII alone; it is
    used to run the model on concrete inputs. *)
Definition ascii_only_data : UnicodeData :=
  {| ucd_tolower_full := fun c => [c];
     ucd_toupper_full := fun c => [c];
     ucd_capital_sigma := fun _ _ => 0x3C3%N;
     ucd_isdecimal := fun _ => false |}.

(** ** [html.escape]

    [html.escape(s)] with the default [quote=True] is five calls of
    [str.replace], the ampersand first. *)

Definition replace1 (old : cp) (new : str) (s : str) : str :=
  flat_map (fun c => if (c =? old)%N then new else [c]) s.

Definition html_escape (s : str) : str :=
  let s := replace1 (ord "&") (py "&amp;") s in
  let s := replace1 (ord "<") (py "&lt;") s in
  let s := replace1 (ord ">") (py "&gt;") s in
  let s := replace1 0x22%N (py "&quot;") s in
  let s := replace1 (ord "'") (py "&#x27;") s in
  s.

(** The five characters with an entity, and the entity of each. *)
Definition entity (c : cp) : option str :=
  if (c =? ord "&")%N then Some (py "&amp;")
  else if (c =? ord "<")%N then Some (py "&lt;")
  else if (c =? ord ">")%N then Some (py "&gt;")
  else if (c =? 0x22)%N then Some (py "&quot;")
  else if (c =? ord "'")%N then Some (py "&#x27;")
  else None.

(** ** Regular expressions

    The fragment of [re] the module uses: anchors, literals, character
    sets and greedy repeats of a character set.  The constructors are
    named after the opcodes [sre_parse] gives them. *)

Inductive set_item :=
| RANGE (lo hi : cp)
| CHR (c : cp)
| CATEGORY_SPACE
| CATEGORY_DIGIT.

Inductive node :=
| AT_BEGINNING
| AT_END
| LITERAL (c : cp)
| IN (items : list set_item)
| MAX_REPEAT (lo : nat) (hi : option nat) (items : list set_item).

Definition pattern := list node.

Section Regex.
Context {ud : UnicodeData}.

Definition in_item (c : cp) (it : set_item) : bool :=
  match it with
  | RANGE lo hi => between lo hi c
  | CHR x => (c =? x)%N
  | CATEGORY_SPACE => isspace c
  | CATEGORY_DIGIT => isdecimal c
  end.

Definition in_set (items : list set_item) (c : cp) : bool :=
  existsb (in_item c) items.

Definition may_repeat (hi : option nat) : bool :=
  match hi with Some 0 => false | _ => true end.

(** A greedy repeat of a test [p], between [lo] and [hi] times, then
    the rest of the pattern [k].  [start] says whether the position is
    still the beginning of the string. *)
Fixpoint repeat_set (p : cp -> bool) (lo : nat) (hi : option nat)
    (k : bool -> str -> bool) (start : bool) (s : str) : bool :=
  match s with
  | c :: s' =>
      (p c && may_repeat hi
         && repeat_set p (Nat.pred lo) (Nat.pred <$> hi) k false s')
      || (Nat.eqb lo 0 && k start s)
  | [] => Nat.eqb lo 0 && k start s
  end.

(** [$] without [re.MULTILINE]: the end of the string, or just before
    a newline that is its last character. *)
Definition at_end (s : str) : bool :=
  match s with
  | [] => true
  | [c] => (c =? 0x0A)%N
  | _ => false
  end.

(** Whether the pattern matches some prefix of [s]. *)
Fixpoint match_here (p : pattern) (start : bool) (s : str) : bool :=
  match p with
  | [] => true
  | AT_BEGINNING :: p' => start && match_here p' start s
  | AT_END :: p' => at_end s && match_here p' start s
  | LITERAL c :: p' =>
      match s with
      | c' :: s' => (c' =? c)%N && match_here p' false s'
      | [] => false
      end
  | IN items :: p' =>
      match s with
      | c' :: s' => in_set items c' && match_here p' false s'
      | [] => false
      end
  | MAX_REPEAT lo hi items :: p' =>
      repeat_set (in_set items) lo hi (match_here p') start s
  end.

(** [re.match(p, s) is not None] *)
Definition re_match (p : pattern) (s : str) : bool := match_here p true s.

Fixpoint search_from (p : pattern) (start : bool) (s : str) : bool :=
  match_here p start s
  || match s with
     | _ :: s' => search_from p false s'
     | [] => false
     end.

(** [re.search(p, s) is not None] *)
Definition re_search (p : pattern) (s : str) : bool := search_from p true s.
End Regex.

(** The characters [[A-Za-z]] matches. *)
Definition ascii_letter (c : cp) : bool :=
  between (ord "A") (ord "Z") c || between (ord "a") (ord "z") c.

(** The characters [[A-Z]] matches. *)
Definition upper_letter (c : cp) : bool := between (ord "A") (ord "Z") c.

(** The bound of a repeat, as a proposition on the number of repetitions. *)
Definition within (hi : option nat) (n : nat) : Prop :=
  match hi with Some h => n <= h | None => True end.

Definition is_nil (s : str) : bool :=
  match s with [] => true | _ => false end.

(** ** Validation results

    A validator returns the normalised value or raises [ValueError]; the
    constructors stand for the messages of the source. *)

Inductive ValueError :=
| Invalid_email_format          (* 'Invalid email format' *)
| Password_too_short            (* 'Password must be at least 6 characters' *)
| Password_too_long             (* 'Password too long' *)
| Password_weak                 (* 'Password must contain at least one letter and one number' *)
| Full_name_too_short           (* 'Full name must be at least 2 characters' *)
| Full_name_too_long            (* 'Full name too long' *)
| Full_name_invalid_characters  (* 'Full name contains invalid characters' *)
| Password_required             (* 'Password is required' *)
| Invalid_token_format          (* 'Invalid token format' *)
| Invalid_token_length          (* 'Invalid token length' *)
| API_credential_length         (* 'API credential length must be between 10-200 characters' *)
| API_credential_invalid_characters (* 'API credentials contain invalid characters' *)
| Invalid_action                (* 'Action must be either "start" or "stop"' *)
| Symbol_length                 (* 'Symbol length must be between 3-20 characters' *)
| Invalid_symbol_format         (* 'Invalid symbol format. Must be like BTCUSDT' *)
| Order_size_range              (* 'Order size must be between 10-1000 USDT' *)
| Leverage_range                (* 'Leverage must be between 1-20' *)
| Stop_loss_range               (* 'Stop loss must be between 1-10%' *)
| Take_profit_range             (* 'Take profit must be between 2-20%' *)
| Invalid_timeframe             (* 'Timeframe must be one of: 1m, 5m, 15m, 1h, 4h' *)
| Message_too_long.             (* 'Message too long' *)

Inductive result (A : Type) :=
| Ok (a : A)
| Raise (e : ValueError).
Arguments Ok {A} a.
Arguments Raise {A} e.

Definition is_ok {A} (r : result A) : bool :=
  match r with Ok _ => true | Raise _ => false end.

(** ** Construction of a request model

    [BaseModel.__init__] runs the validator of every field that is
    given and collects the errors of all of them, each with the name of
    its field; a field that is not given takes its default, which is
    not validated. *)

Inductive outcome (A : Type) :=
| Built (a : A)
| ValidationError (errors : list (string * ValueError)).
Arguments Built {A} a.
Arguments ValidationError {A} errors.

Definition field_outcome {A} (name : string) (validate : A -> result A)
    (default : A) (given : option A) : outcome A :=
  match given with
  | None => Built default
  | Some v =>
      match validate v with
      | Ok a => Built a
      | Raise e => ValidationError [(name, e)]
      end
  end.

Definition collect {A B} (f : outcome (A -> B)) (x : outcome A) : outcome B :=
  match f, x with
  | Built g, Built a => Built (g a)
  | Built _, ValidationError e => ValidationError e
  | ValidationError e, Built _ => ValidationError e
  | ValidationError e1, ValidationError e2 => ValidationError (e1 ++ e2)
  end.

(** ** The patterns of the source *)

Definition a_z := RANGE (ord "a") (ord "z").
Definition A_Z := RANGE (ord "A") (ord "Z").
Definition d0_9 := RANGE (ord "0") (ord "9").

(** [^[a-zA-Z0-9._%+-]+@[a-zA-Z0-9.-]+\.[a-zA-Z]{2,}$] *)
Definition email_local_set : list set_item :=
  [a_z; A_Z; d0_9; CHR (ord "."); CHR (ord "_"); CHR (ord "%");
   CHR (ord "+"); CHR (ord "-")].
Definition email_domain_set : list set_item :=
  [a_z; A_Z; d0_9; CHR (ord "."); CHR (ord "-")].
Definition email_tld_set : list set_item := [a_z; A_Z].
Definition email_pattern : pattern :=
  [AT_BEGINNING; MAX_REPEAT 1 None email_local_set; LITERAL (ord "@");
   MAX_REPEAT 1 None email_domain_set; LITERAL (ord ".");
   MAX_REPEAT 2 None email_tld_set; AT_END].

(** [[A-Za-z]] and [\d] *)
Definition letter_pattern : pattern := [IN [A_Z; a_z]].
Definition digit_pattern : pattern := [IN [CATEGORY_DIGIT]].

(** [^[a-zA-ZğüşıöçĞÜŞİÖÇ\s\-\.\']+$]: the twelve Turkish letters are
    U+011F, U+00FC, U+015F, U+0131, U+00F6, U+00E7 and U+011E, U+00DC,
    U+015E, U+0130, U+00D6, U+00C7. *)
Definition full_name_set : list set_item :=
  [a_z; A_Z;
   CHR 0x11F; CHR 0xFC; CHR 0x15F; CHR 0x131; CHR 0xF6; CHR 0xE7;
   CHR 0x11E; CHR 0xDC; CHR 0x15E; CHR 0x130; CHR 0xD6; CHR 0xC7;
   CATEGORY_SPACE; CHR (ord "-"); CHR (ord "."); CHR (ord "'")].
Definition full_name_pattern : pattern :=
  [AT_BEGINNING; MAX_REPEAT 1 None full_name_set; AT_END].

(** [^[a-zA-Z0-9\-_]+$] *)
Definition token_set : list set_item :=
  [a_z; A_Z; d0_9; CHR (ord "-"); CHR (ord "_")].
Definition token_pattern : pattern :=
  [AT_BEGINNING; MAX_REPEAT 1 None token_set; AT_END].

(** [^[a-zA-Z0-9]+$] *)
Definition api_credential_set : list set_item := [a_z; A_Z; d0_9].
Definition api_credential_pattern : pattern :=
  [AT_BEGINNING; MAX_REPEAT 1 None api_credential_set; AT_END].

(** [^[A-Z]{2,10}USDT$] *)
Definition symbol_pattern : pattern :=
  [AT_BEGINNING; MAX_REPEAT 2 (Some 10) [A_Z];
   LITERAL (ord "U"); LITERAL (ord "S"); LITERAL (ord "D"); LITERAL (ord "T");
   AT_END].

(** ** Request models *)

Module UserRegister.
Section Validators.
Context {ud : UnicodeData}.

Definition validate_email (v : str) : result str :=
  let email_str := strip (lower v) in
  if negb (re_match email_pattern email_str) then Raise Invalid_email_format
  else Ok email_str.

Definition validate_password (v : str) : result str :=
  if length v <? 6 then Raise Password_too_short
  else if 128 <? length v then Raise Password_too_long
  else if negb (re_search letter_pattern v) || negb (re_search digit_pattern v)
  then Raise Password_weak
  else Ok v.

Definition validate_full_name (v : str) : result str :=
  let v := html_escape (strip v) in
  if length v <? 2 then Raise Full_name_too_short
  else if 100 <? length v then Raise Full_name_too_long
  else if negb (re_match full_name_pattern v)
  then Raise Full_name_invalid_characters
  else Ok v.
End Validators.
End UserRegister.

Module UserLogin.
Section Validators.
Context {ud : UnicodeData}.

Definition validate_email (v : str) : result str := Ok (strip (lower v)).

Definition validate_password (v : str) : result str :=
  if length v <? 1 then Raise Password_required
  else if 128 <? length v then Raise Password_too_long
  else Ok v.
End Validators.
End UserLogin.

Module PasswordReset.
Section Validators.
Context {ud : UnicodeData}.

Definition validate_email (v : str) : result str :=
  if negb (re_match email_pattern v) then Raise Invalid_email_format
  else Ok (lower v).
End Validators.
End PasswordReset.

Module PasswordResetConfirm.
Section Validators.
Context {ud : UnicodeData}.

Definition validate_token (v : str) : result str :=
  if negb (re_match token_pattern v) then Raise Invalid_token_format
  else if (length v <? 10) || (200 <? length v) then Raise Invalid_token_length
  else Ok v.

Definition validate_password (v : str) : result str :=
  if length v <? 6 then Raise Password_too_short
  else if negb (re_search letter_pattern v) || negb (re_search digit_pattern v)
  then Raise Password_weak
  else if 128 <? length v then Raise Password_too_long
  else Ok v.
End Validators.
End PasswordResetConfirm.

Module APIKeysUpdate.
Section Validators.
Context {ud : UnicodeData}.

(** One validator, registered for both [api_key] and [api_secret]. *)
Definition validate_api_credentials (v : str) : result str :=
  let v := strip v in
  if (length v <? 10) || (200 <? length v) then Raise API_credential_length
  else if negb (re_match api_credential_pattern v)
  then Raise API_credential_invalid_characters
  else Ok v.
End Validators.
End APIKeysUpdate.

Module BotControl.
Section Validators.
Context {ud : UnicodeData}.

Definition validate_action (v : str) : result str :=
  if negb (str_in v [py "start"; py "stop"]) then Raise Invalid_action
  else Ok v.

(** [symbol: Optional[str] = None] *)
Definition validate_symbol (v : option str) : result (option str) :=
  match v with
  | None => Ok None
  | Some v =>
      let v := strip (upper v) in
      if (length v <? 3) || (20 <? length v) then Raise Symbol_length
      else if negb (re_match symbol_pattern v) then Raise Invalid_symbol_format
      else Ok (Some v)
  end.
End Validators.
End BotControl.

(** Python's [float] is an IEEE 754 binary64 number and [int] is an
    unbounded integer. *)
Definition float := spec_float.
Definition prec : Z := 53.
Definition emax : Z := 1024.

(** The literal of an integral float such as [10.0]. *)
Definition float_of_Z (z : Z) : float := binary_normalize prec emax z 0 false.

Definition nan : float := S754_nan.

Module BotSettings.
Definition validate_order_size (v : float) : result float :=
  if SFltb v (float_of_Z 10) || SFltb (float_of_Z 1000) v
  then Raise Order_size_range else Ok v.

Definition validate_leverage (v : Z) : result Z :=
  if ((v <? 1) || (20 <? v))%Z then Raise Leverage_range else Ok v.

Definition validate_stop_loss (v : float) : result float :=
  if SFltb v (float_of_Z 1) || SFltb (float_of_Z 10) v
  then Raise Stop_loss_range else Ok v.

Definition validate_take_profit (v : float) : result float :=
  if SFltb v (float_of_Z 2) || SFltb (float_of_Z 20) v
  then Raise Take_profit_range else Ok v.

Definition timeframes : list str :=
  [py "1m"; py "5m"; py "15m"; py "1h"; py "4h"].

Definition validate_timeframe (v : str) : result str :=
  if negb (str_in v timeframes) then Raise Invalid_timeframe else Ok v.

Record t := Build {
  order_size_usdt : float;
  leverage : Z;
  stop_loss_percent : float;
  take_profit_percent : float;
  timeframe : str
}.

(** The defaults of the five fields: [25.0], [10], [4.0], [8.0] and
    ["15m"]. *)
Definition default : t :=
  {| order_size_usdt := float_of_Z 25;
     leverage := 10;
     stop_loss_percent := float_of_Z 4;
     take_profit_percent := float_of_Z 8;
     timeframe := py "15m" |}.

(** [BotSettings(...)], each argument given or left out. *)
Definition init (size : option float) (lev : option Z)
    (stop take : option float) (frame : option str) : outcome t :=
  collect
    (collect
       (collect
          (collect
             (collect (Built Build)
                (field_outcome "order_size_usdt" validate_order_size
                   (order_size_usdt default) size))
             (field_outcome "leverage" validate_leverage
                (leverage default) lev))
          (field_outcome "stop_loss_percent" validate_stop_loss
             (stop_loss_percent default) stop))
       (field_outcome "take_profit_percent" validate_take_profit
          (take_profit_percent default) take))
    (field_outcome "timeframe" validate_timeframe (timeframe default) frame).

(** A float that is NaN or lies between two integers, ends included. *)
Definition nan_or_between (lo hi : Z) (v : float) : Prop :=
  v = nan \/ (SFleb (float_of_Z lo) v = true /\ SFleb v (float_of_Z hi) = true).
End BotSettings.

Module PaymentNotification.
(** [message: Optional[str] = None] *)
Definition validate_message (v : option str) : result (option str) :=
  match v with
  | None => Ok None
  | Some v =>
      let v := html_escape (strip v) in
      if 500 <? length v then Raise Message_too_long else Ok (Some v)
  end.
End PaymentNotification.

(** ** Response models

    [UserData] declares fields and defaults and no validator.  What
    [BaseModel.__init__] does with a keyword dictionary is modelled for
    values that already have the declared type: a missing key takes the
    field's default, or is an error when the field has none, and the
    errors of all fields are collected. *)

Inductive UserRole := USER | ADMIN.
Inductive SubscriptionStatus := TRIAL | ACTIVE | EXPIRED | CANCELLED.

Inductive BotStatus := STOPPED | RUNNING | ERROR.

(** The value of each member. *)
Definition UserRole_value (r : UserRole) : str :=
  match r with USER => py "user" | ADMIN => py "admin" end.

Definition SubscriptionStatus_value (s : SubscriptionStatus) : str :=
  match s with
  | TRIAL => py "trial"
  | ACTIVE => py "active"
  | EXPIRED => py "expired"
  | CANCELLED => py "cancelled"
  end.

Definition BotStatus_value (s : BotStatus) : str :=
  match s with
  | STOPPED => py "stopped"
  | RUNNING => py "running"
  | ERROR => py "error"
  end.

(** The members in the order of their declaration. *)
Definition UserRole_members : list UserRole := [USER; ADMIN].
Definition SubscriptionStatus_members : list SubscriptionStatus :=
  [TRIAL; ACTIVE; EXPIRED; CANCELLED].
Definition BotStatus_members : list BotStatus := [STOPPED; RUNNING; ERROR].

(** [E(v)]: the first member whose value is [v]. *)
Definition enum_of_value {A} (members : list A) (value : A -> str) (v : str)
  : option A :=
  List.find (fun m => str_eqb (value m) v) members.

Definition datetime := Z.

(** A value of a stored record. *)
Inductive raw :=
| RNone
| RStr (s : str)
| RBool (b : bool)
| RDatetime (t : datetime).

Inductive field_error :=
| Field_required (name : string)
| Type_error (name : string).

Inductive validation (A : Type) :=
| Valid (a : A)
| Invalid (errors : list field_error).
Arguments Valid {A} a.
Arguments Invalid {A} errors.

Definition ap {A B} (f : validation (A -> B)) (x : validation A) : validation B :=
  match f, x with
  | Valid g, Valid a => Valid (g a)
  | Valid _, Invalid e => Invalid e
  | Invalid e, Valid _ => Invalid e
  | Invalid e1, Invalid e2 => Invalid (e1 ++ e2)
  end.
Infix "<*>" := ap (at level 61, left associativity).

Definition as_str (name : string) (r : raw) : validation str :=
  match r with RStr s => Valid s | _ => Invalid [Type_error name] end.

Definition as_bool (name : string) (r : raw) : validation bool :=
  match r with RBool b => Valid b | _ => Invalid [Type_error name] end.

Definition as_role (name : string) (r : raw) : validation UserRole :=
  match r with
  | RStr s =>
      if str_eqb s (py "user") then Valid USER
      else if str_eqb s (py "admin") then Valid ADMIN
      else Invalid [Type_error name]
  | _ => Invalid [Type_error name]
  end.

Definition as_subscription_status (name : string) (r : raw)
  : validation SubscriptionStatus :=
  match r with
  | RStr s =>
      if str_eqb s (py "trial") then Valid TRIAL
      else if str_eqb s (py "active") then Valid ACTIVE
      else if str_eqb s (py "expired") then Valid EXPIRED
      else if str_eqb s (py "cancelled") then Valid CANCELLED
      else Invalid [Type_error name]
  | _ => Invalid [Type_error name]
  end.

(** [Optional[T]]: [None] is a value of the field. *)
Definition as_optional {A} (conv : string -> raw -> validation A)
    (name : string) (r : raw) : validation (option A) :=
  match r with
  | RNone => Valid None
  | _ => match conv name r with
         | Valid a => Valid (Some a)
         | Invalid e => Invalid e
         end
  end.

Definition as_datetime (name : string) (r : raw) : validation datetime :=
  match r with RDatetime t => Valid t | _ => Invalid [Type_error name] end.

(** A field without a default. *)
Definition required {A} (conv : string -> raw -> validation A)
    (kw : gmap string raw) (name : string) : validation A :=
  match kw !! name with
  | Some r => conv name r
  | None => Invalid [Field_required name]
  end.

(** A field with a default. *)
Definition with_default {A} (conv : string -> raw -> validation A)
    (kw : gmap string raw) (name : string) (default : A) : validation A :=
  match kw !! name with
  | Some r => conv name r
  | None => Valid default
  end.

Module UserData.
Record t := Build {
  uid : str;
  email : str;
  full_name : str;
  password_hash : str;
  role : UserRole;
  subscription_status : SubscriptionStatus;
  trial_end_date : option datetime;
  subscription_end_date : option datetime;
  created_at : option datetime;
  is_blocked : bool;
  api_key_encrypted : option str;
  api_secret_encrypted : option str;
  is_testnet : bool
}.

(** Construction from the keyword dictionary [kw]. *)
Definition init (kw : gmap string raw) : validation t :=
  Valid Build
    <*> required as_str kw "uid"
    <*> required as_str kw "email"
    <*> required as_str kw "full_name"
    <*> required as_str kw "password_hash"
    <*> with_default as_role kw "role" USER
    <*> with_default as_subscription_status kw "subscription_status" TRIAL
    <*> with_default (as_optional as_datetime) kw "trial_end_date" None
    <*> with_default (as_optional as_datetime) kw "subscription_end_date" None
    <*> with_default (as_optional as_datetime) kw "created_at" None
    <*> with_default as_bool kw "is_blocked" false
    <*> with_default (as_optional as_str) kw "api_key_encrypted" None
    <*> with_default (as_optional as_str) kw "api_secret_encrypted" None
    <*> with_default as_bool kw "is_testnet" false.

(** The fields declared [Optional[...] = None]. *)
Definition optional_fields : list string :=
  ["trial_end_date"; "subscription_end_date"; "created_at";
   "api_key_encrypted"; "api_secret_encrypted"].

End UserData.

(** An address [local@domain.tld] over the three sets of the email
    pattern: what the pattern accepts when [$] is the end of the string. *)
Definition valid_email {ud : UnicodeData} (e : str) : Prop :=
  exists local domain tld,
    e = local ++ [ord "@"] ++ domain ++ [ord "."] ++ tld
    /\ local <> [] /\ forallb (in_set email_local_set) local = true
    /\ domain <> [] /\ forallb (in_set email_domain_set) domain = true
    /\ 2 <= length tld /\ forallb (in_set email_tld_set) tld = true.

(** The code points of ASCII. *)
Definition ascii_range : list cp := List.map N.of_nat (seq 0 128).

(** What the proofs about addresses need of one character: a character
    of one of the three sets is not white space, is not the capital
    sigma, and stays in its set when lower-cased. *)
Definition email_char_ok {ud : UnicodeData} (c : cp) : bool :=
  implb (in_set email_local_set c)
        (negb (isspace c) && in_set email_local_set (ascii_lower c))
  && implb (in_set email_domain_set c)
           (in_set email_local_set c && in_set email_domain_set (ascii_lower c))
  && implb (in_set email_tld_set c)
           (in_set email_domain_set c && in_set email_tld_set (ascii_lower c))
  && (ascii_lower (ascii_lower c) =? ascii_lower c)%N.

(** White space has no lower case of its own: what the Unicode database
    gives for the white space above ASCII. *)
Definition spaces_uncased {ud : UnicodeData} : Prop :=
  forall c, isspace c = true -> is_ascii c = false -> ucd_tolower_full c = [c].

(** The record of a user stored with the required fields only. *)
Definition minimal_user_record : gmap string raw :=
  <["uid" := RStr (py "u1")]>
    (<["email" := RStr (py "a@b.co")]>
       (<["full_name" := RStr (py "Al")]>
          (<["password_hash" := RStr (py "x")]> ∅))).

(** * Properties *)

(** ** Strings *)

Lemma str_eqb_eq (a b : str) : str_eqb a b = true <-> a = b.
Proof.
  revert b; induction a as [|x a IH]; intros [|y b]; simpl; try easy.
  rewrite andb_true_iff, N.eqb_eq, IH. split.
  - intros [-> ->]; reflexivity.
  - intros [= -> ->]; auto.
Qed.

Lemma str_in_In (v : str) (l : list str) : str_in v l = true <-> In v l.
Proof.
  unfold str_in. rewrite existsb_exists. split.
  - intros (x & Hx & Heq). apply str_eqb_eq in Heq. now subst.
  - intros Hin. exists v. split; [assumption | now apply str_eqb_eq].
Qed.

(** ** [strip] *)

Lemma lstrip_split (s : str) :
  exists l, s = l ++ lstrip s /\ forallb isspace l = true.
Proof.
  induction s as [|c s (l & Hs & Hl)]; simpl.
  - now exists [].
  - destruct (isspace c) eqn:Hc.
    + exists (c :: l). simpl. rewrite Hc, Hl. split; [congruence | reflexivity].
    + now exists [].
Qed.

Lemma lstrip_head (s t : str) (c : cp) :
  lstrip s = c :: t -> isspace c = false.
Proof.
  induction s as [|x s IH]; simpl; [discriminate|].
  destruct (isspace x) eqn:Hx; [assumption|].
  intros [= <- <-]. assumption.
Qed.

Lemma lstrip_keeps (s : str) (c : cp) :
  In c s -> isspace c = false -> In c (lstrip s).
Proof.
  intros Hin Hc. induction s as [|x s IH]; simpl in *; [contradiction|].
  destruct (isspace x) eqn:Hx.
  - destruct Hin as [-> | Hin]; [congruence | auto].
  - assumption.
Qed.

Lemma lstrip_spaces_app (l s : str) :
  forallb isspace l = true -> lstrip (l ++ s) = lstrip s.
Proof.
  induction l as [|x l IH]; simpl; [reflexivity|].
  rewrite andb_true_iff. intros [-> Hl]. auto.
Qed.

Lemma lstrip_fixed (s : str) (c : cp) :
  isspace c = false -> lstrip (c :: s) = c :: s.
Proof. intros Hc. simpl. now rewrite Hc. Qed.

Lemma rstrip_split (s : str) :
  exists r, s = rstrip s ++ r /\ forallb isspace r = true.
Proof.
  unfold rstrip. destruct (lstrip_split (rev s)) as (l & Hs & Hl).
  exists (rev l). split.
  - rewrite <- rev_app_distr, <- Hs. now rewrite rev_involutive.
  - rewrite forallb_forall in *. intros x Hx. apply Hl. now apply in_rev.
Qed.

Lemma rstrip_last (s t : str) (c : cp) :
  rstrip s = t ++ [c] -> isspace c = false.
Proof.
  unfold rstrip. intros Hr.
  apply (f_equal (@rev cp)) in Hr.
  rewrite rev_involutive, rev_app_distr in Hr. simpl in Hr.
  eapply lstrip_head; eassumption.
Qed.

Lemma rstrip_keeps (s : str) (c : cp) :
  In c s -> isspace c = false -> In c (rstrip s).
Proof.
  intros Hin Hc. unfold rstrip. apply -> in_rev.
  apply lstrip_keeps; [now apply -> in_rev | assumption].
Qed.

Lemma rstrip_app_spaces (s r : str) :
  forallb isspace r = true -> rstrip (s ++ r) = rstrip s.
Proof.
  intros Hr. unfold rstrip. rewrite rev_app_distr, lstrip_spaces_app; [reflexivity|].
  rewrite forallb_forall in *. intros x Hx. apply Hr. now apply in_rev.
Qed.

Lemma rstrip_fixed (s : str) (c : cp) :
  isspace c = false -> rstrip (s ++ [c]) = s ++ [c].
Proof.
  intros Hc. unfold rstrip. rewrite rev_app_distr. simpl.
  rewrite Hc. simpl. now rewrite rev_involutive.
Qed.

(** The stripped string is a segment of the input between two runs of
    white space. *)
Lemma strip_split (s : str) :
  exists l r, s = l ++ strip s ++ r
              /\ forallb isspace l = true /\ forallb isspace r = true.
Proof.
  unfold strip. destruct (lstrip_split s) as (l & Hs & Hl).
  destruct (rstrip_split (lstrip s)) as (r & Hs' & Hr).
  exists l, r. split; [|split; assumption]. now rewrite <- Hs'.
Qed.

Lemma strip_last (s t : str) (c : cp) :
  strip s = t ++ [c] -> isspace c = false.
Proof. unfold strip. apply rstrip_last. Qed.

Lemma strip_keeps (s : str) (c : cp) :
  In c s -> isspace c = false -> In c (strip s).
Proof.
  intros Hin Hc. unfold strip. apply rstrip_keeps; [|assumption].
  now apply lstrip_keeps.
Qed.

Lemma strip_length (s : str) : length (strip s) <= length s.
Proof.
  destruct (strip_split s) as (l & r & Hs & _).
  rewrite Hs at 2. rewrite !length_app. lia.
Qed.

(** A string that neither begins nor ends with white space is what
    [strip] gives back from any padding of it. *)
Lemma strip_padded (l r body : str) (a z : cp) :
  forallb isspace l = true -> forallb isspace r = true ->
  isspace a = false -> isspace z = false ->
  strip (l ++ (a :: body ++ [z]) ++ r) = a :: body ++ [z].
Proof.
  intros Hl Hr Ha Hz. unfold strip.
  rewrite lstrip_spaces_app by assumption.
  simpl app at 1. rewrite lstrip_fixed by assumption.
  change (a :: (body ++ [z]) ++ r) with ((a :: body ++ [z]) ++ r).
  rewrite rstrip_app_spaces by assumption.
  change (a :: body ++ [z]) with ((a :: body) ++ [z]).
  now apply rstrip_fixed.
Qed.

Lemma strip_surrounded (l m r : str) :
  forallb isspace l = true -> forallb isspace r = true ->
  m <> [] -> (forall c, In c m -> isspace c = false) ->
  strip (l ++ m ++ r) = m.
Proof.
  intros Hl Hr Hne Hm. destruct m as [|a m]; [congruence|].
  assert (Ha : isspace a = false) by (apply Hm; now left).
  destruct (list_eq_nil_dec m) as [-> | Hm'].
  - unfold strip. rewrite lstrip_spaces_app by assumption.
    simpl app. rewrite lstrip_fixed by assumption.
    change (a :: r) with ([a] ++ r). rewrite rstrip_app_spaces by assumption.
    now apply (rstrip_fixed []).
  - destruct (exists_last Hm') as (body & z & ->).
    apply strip_padded; auto. apply Hm. right. apply in_or_app. right. now left.
Qed.

(** ** Case mapping *)

Lemma ascii_lower_idempotent (c : cp) :
  ascii_lower (ascii_lower c) = ascii_lower c.
Proof.
  unfold ascii_lower, between.
  change (ord "A") with 65%N. change (ord "Z") with 90%N.
  destruct (N.leb_spec 65 c), (N.leb_spec c 90); simpl; try reflexivity;
    destruct (N.leb_spec 65 c), (N.leb_spec c 90); simpl; try reflexivity;
    try lia.
  destruct (N.leb_spec 65 (c + 32)), (N.leb_spec (c + 32) 90); simpl;
    try reflexivity; lia.
Qed.

Lemma ascii_forall (P : cp -> bool) :
  forallb P ascii_range = true -> forall c, is_ascii c = true -> P c = true.
Proof.
  intros Hall c Hc. rewrite forallb_forall in Hall. apply Hall.
  unfold ascii_range. apply in_map_iff. exists (N.to_nat c). split.
  - apply N2Nat.id.
  - apply in_seq. unfold is_ascii in Hc. apply N.ltb_lt in Hc. lia.
Qed.

Lemma space_lower (c : cp) : isspace c = true -> ascii_lower c = c.
Proof.
  intros Hsp. destruct (is_ascii c) eqn:Hc.
  - assert (Hall : forallb (fun c => implb (isspace c) (ascii_lower c =? c)%N)
                     ascii_range = true) by (vm_compute; reflexivity).
    pose proof (ascii_forall _ Hall c Hc) as Hok. cbv beta in Hok.
    rewrite Hsp in Hok. now apply N.eqb_eq.
  - unfold ascii_lower, between, is_ascii in *.
    apply N.ltb_ge in Hc.
    destruct (N.leb_spec (ord "A") c), (N.leb_spec c (ord "Z")); simpl;
      try reflexivity.
    change (ord "Z") with 90%N in *. lia.
Qed.

Section Lowering.
Context {ud : UnicodeData}.

Lemma do_lower_plain (whole : str) (s : str) :
  (forall c, In c s ->
     (c =? 0x3A3)%N = false /\ tolower_full c = [ascii_lower c]) ->
  forall i, do_lower whole i s = List.map ascii_lower s.
Proof.
  induction s as [|c s IH]; intros Hs i; simpl; [reflexivity|].
  destruct (Hs c (or_introl eq_refl)) as [Hsigma Hlow].
  unfold lower_ucs4. rewrite Hsigma, Hlow. simpl. f_equal.
  apply IH. intros x Hx. apply Hs. now right.
Qed.

Lemma ascii_plain (c : cp) :
  is_ascii c = true ->
  (c =? 0x3A3)%N = false /\ tolower_full c = [ascii_lower c].
Proof.
  intros Hc. split.
  - apply N.eqb_neq. intros ->. discriminate.
  - unfold tolower_full. now rewrite Hc.
Qed.

Lemma space_plain (c : cp) :
  spaces_uncased -> isspace c = true ->
  (c =? 0x3A3)%N = false /\ tolower_full c = [ascii_lower c].
Proof.
  intros Hud Hsp. destruct (is_ascii c) eqn:Hc; [now apply ascii_plain|].
  split.
  - apply N.eqb_neq. intros ->. discriminate.
  - unfold tolower_full. rewrite Hc, space_lower by assumption. now apply Hud.
Qed.
End Lowering.

(** ** The regular-expression matcher *)

Section RegexFacts.
Context {ud : UnicodeData}.

(** A repeat matches exactly when the string splits into a run of
    [lo] to [hi] characters of the set and a rest the continuation
    accepts. *)
Lemma repeat_set_spec (p : cp -> bool) (k : bool -> str -> bool) (s : str) :
  forall lo hi start,
    repeat_set p lo hi k start s = true <->
    exists run rest,
      s = run ++ rest /\ forallb p run = true
      /\ lo <= length run /\ within hi (length run)
      /\ k (start && is_nil run) rest = true.
Proof.
  induction s as [|c s IH]; intros lo hi start; simpl.
  - rewrite andb_true_iff, Nat.eqb_eq. split.
    + intros [-> Hk]. exists [], []. simpl. rewrite andb_true_r.
      repeat split; auto. destruct hi; simpl; lia.
    + intros (run & rest & Hs & _ & Hlo & _ & Hk).
      symmetry in Hs. apply app_eq_nil in Hs as [-> ->]. simpl in *.
      rewrite andb_true_r in Hk. split; [lia | assumption].
  - rewrite orb_true_iff, !andb_true_iff, Nat.eqb_eq, IH. split.
    + intros [[[Hc Hhi] (run & rest & -> & Hrun & Hlo & Hwi & Hk)] | [-> Hk]].
      * exists (c :: run), rest. simpl. rewrite Hc, Hrun, andb_false_r.
        repeat split; auto; [lia|].
        destruct hi as [[|h]|]; simpl in *; try discriminate; try lia; auto.
      * exists [], (c :: s). simpl. rewrite andb_true_r.
        repeat split; auto. destruct hi; simpl; lia.
    + intros (run & rest & Hs & Hrun & Hlo & Hwi & Hk).
      destruct run as [|x run]; simpl in *.
      * right. subst rest. rewrite andb_true_r in Hk. split; [lia | assumption].
      * left. injection Hs as <- ->. apply andb_true_iff in Hrun as [Hc Hrun].
        rewrite andb_false_r in Hk.
        split; [split; [assumption|] |].
        -- destruct hi as [[|h]|]; simpl in *; auto; lia.
        -- exists run, rest. repeat split; auto; [lia|].
           destruct hi as [[|h]|]; simpl in *; auto; lia.
Qed.

(** One step of the matcher, with the rest of the pattern kept folded. *)
Lemma match_here_begin (p : pattern) (start : bool) (s : str) :
  match_here (AT_BEGINNING :: p) start s = start && match_here p start s.
Proof. reflexivity. Qed.

Lemma match_here_repeat lo hi items (p : pattern) (start : bool) (s : str) :
  match_here (MAX_REPEAT lo hi items :: p) start s
  = repeat_set (in_set items) lo hi (match_here p) start s.
Proof. reflexivity. Qed.

Lemma match_here_literal (c : cp) (p : pattern) (start : bool) (s : str) :
  match_here (LITERAL c :: p) start s = true <->
  exists s', s = c :: s' /\ match_here p false s' = true.
Proof.
  destruct s as [|x s]; cbn [match_here].
  - split; [discriminate | intros (s' & [=] & _)].
  - rewrite andb_true_iff, N.eqb_eq. split.
    + intros [-> Hm]. eauto.
    + intros (s' & [= -> ->] & Hm). auto.
Qed.

Lemma at_end_spec (s : str) :
  at_end s = true <-> s = [] \/ s = [0x0A%N].
Proof.
  destruct s as [|c [|d s]]; simpl.
  - split; auto.
  - rewrite N.eqb_eq. split.
    + intros ->. now right.
    + intros [|[= ->]]; [discriminate | reflexivity].
  - split; [discriminate | intros [|]; discriminate].
Qed.

(** [^[set]+$]: a non-empty run of the set, and possibly one newline
    after it. *)
Lemma anchored_run_spec (items : list set_item) (s : str) :
  re_match [AT_BEGINNING; MAX_REPEAT 1 None items; AT_END] s = true <->
  exists run,
    run <> [] /\ forallb (in_set items) run = true
    /\ (s = run \/ s = run ++ [0x0A%N]).
Proof.
  unfold re_match. simpl match_here. rewrite repeat_set_spec. split.
  - intros (run & rest & -> & Hrun & Hlo & _ & Hk).
    rewrite andb_true_r in Hk. apply at_end_spec in Hk.
    exists run. split; [|split; [assumption|]].
    + intros ->. simpl in Hlo. lia.
    + destruct Hk as [-> | ->]; [left; now rewrite app_nil_r | now right].
  - intros (run & Hne & Hrun & Hs).
    assert (1 <= length run) by (destruct run; simpl; [congruence | lia]).
    destruct Hs as [-> | ->].
    + exists run, []. rewrite app_nil_r. repeat split; auto.
    + exists run, [0x0A%N]. repeat split; auto.
Qed.

(** When the set holds the newline itself, the pattern accepts exactly
    the non-empty strings over the set. *)
Lemma anchored_run_with_newline (items : list set_item) (s : str) :
  in_set items 0x0A = true ->
  re_match [AT_BEGINNING; MAX_REPEAT 1 None items; AT_END] s = true <->
  s <> [] /\ forallb (in_set items) s = true.
Proof.
  intros Hnl. rewrite anchored_run_spec. split.
  - intros (run & Hne & Hrun & [-> | ->]); [auto|]. split.
    + intros Heq. apply app_eq_nil in Heq as [_ [=]].
    + rewrite forallb_app, Hrun. simpl. now rewrite Hnl.
  - intros [Hne Hs]. exists s. auto.
Qed.

(** All the characters of a string the pattern accepts are in the set
    or are the final newline. *)
Lemma anchored_run_chars (items : list set_item) (s : str) (c : cp) :
  re_match [AT_BEGINNING; MAX_REPEAT 1 None items; AT_END] s = true ->
  In c s -> in_set items c = true \/ c = 0x0A%N.
Proof.
  rewrite anchored_run_spec. intros (run & _ & Hrun & Hs) Hin.
  rewrite forallb_forall in Hrun.
  destruct Hs as [-> | ->]; [left; auto|].
  apply in_app_or in Hin as [Hin | [<- | []]]; auto.
Qed.

(** [re.search] of a one-character pattern looks for a character of
    the set anywhere in the string. *)
Lemma search_set_spec (items : list set_item) (s : str) :
  re_search [IN items] s = existsb (in_set items) s.
Proof.
  unfold re_search. generalize true.
  induction s as [|c s IH]; intros start; simpl; [reflexivity|].
  now rewrite andb_true_r, IH.
Qed.
End RegexFacts.

(** ** [html.escape] *)

Lemma replace1_flat_map (old : cp) (new : str) (g : cp -> str) (s : str) :
  replace1 old new (flat_map g s)
  = flat_map (fun c => replace1 old new (g c)) s.
Proof.
  unfold replace1. induction s as [|c s IH]; simpl; [reflexivity|].
  rewrite flat_map_app. f_equal. exact IH.
Qed.

(** Escaping works character by character. *)
Lemma html_escape_flat_map (s : str) :
  html_escape s = flat_map (fun c => html_escape [c]) s.
Proof.
  unfold html_escape.
  assert (Hfirst : replace1 (ord "&") (py "&amp;") s
                   = flat_map (fun c => replace1 (ord "&") (py "&amp;") [c]) s).
  { unfold replace1. apply flat_map_ext. intros c. simpl. now rewrite app_nil_r. }
  rewrite Hfirst. now rewrite !replace1_flat_map.
Qed.

Lemma html_escape_char (c : cp) :
  html_escape [c] = match entity c with Some e => e | None => [c] end.
Proof.
  unfold entity.
  repeat match goal with
  | |- context [(c =? ?k)%N] =>
      destruct (N.eqb_spec c k) as [-> | ?]; [reflexivity|]
  end.
  unfold html_escape, replace1. simpl.
  repeat match goal with
  | Hne : c <> ?k |- context [(c =? ?k')%N] =>
      replace (c =? k')%N with false by (symmetry; now apply N.eqb_neq); simpl
  end.
  reflexivity.
Qed.

Lemma flat_map_length_ge {A B} (f : A -> list B) (x : A) (l : list A) :
  In x l -> length (f x) <= length (flat_map f l).
Proof.
  induction l as [|y l IH]; simpl; [contradiction|].
  rewrite length_app. intros [-> | Hin]; [lia|]. apply IH in Hin. lia.
Qed.

(** A string holding a character that has an entity is escaped to a
    string that holds an ampersand and is at least four characters long. *)
Lemma html_escape_entity (s e : str) (c : cp) :
  In c s -> entity c = Some e ->
  In (ord "&") (html_escape s) /\ 4 <= length (html_escape s).
Proof.
  intros Hin He. rewrite html_escape_flat_map. split.
  - apply in_flat_map. exists c. split; [assumption|]. cbv beta.
    rewrite html_escape_char, He. revert He. unfold entity.
    repeat (destruct (_ =? _)%N; [intros [= <-]; simpl; auto|]).
    discriminate.
  - etransitivity; [|apply (flat_map_length_ge _ c); assumption]. cbv beta.
    rewrite html_escape_char, He. revert He. unfold entity.
    repeat (destruct (_ =? _)%N; [intros [= <-]; simpl; lia|]).
    discriminate.
Qed.

(** ** The patterns of the validators *)

Lemma nonempty_length (s : str) : 1 <= length s <-> s <> [].
Proof. destruct s; simpl; split; intros; try congruence; lia. Qed.

Section PatternFacts.
Context {ud : UnicodeData}.

Lemma full_name_pattern_spec (w : str) :
  re_match full_name_pattern w = true <->
  w <> [] /\ forallb (in_set full_name_set) w = true.
Proof. apply anchored_run_with_newline. reflexivity. Qed.

Lemma token_pattern_spec (v : str) :
  re_match token_pattern v = true <->
  exists run, run <> [] /\ forallb (in_set token_set) run = true
              /\ (v = run \/ v = run ++ [0x0A%N]).
Proof. apply anchored_run_spec. Qed.

(** On a stripped string [$] can only be the end of the string. *)
Lemma api_credential_pattern_spec (v : str) :
  re_match api_credential_pattern (strip v) = true <->
  strip v <> [] /\ forallb (in_set api_credential_set) (strip v) = true.
Proof.
  unfold api_credential_pattern. rewrite anchored_run_spec. split.
  - intros (run & Hne & Hrun & [Hs | Hs]).
    + rewrite Hs. auto.
    + apply strip_last in Hs. discriminate.
  - intros [Hne Hall]. exists (strip v). auto.
Qed.

Lemma search_letter_spec (v : str) :
  re_search letter_pattern v = true <->
  exists c, In c v /\ ascii_letter c = true.
Proof.
  unfold letter_pattern. rewrite search_set_spec, existsb_exists.
  split; intros (c & Hin & Hc); exists c; (split; [assumption|]);
    revert Hc; unfold in_set, ascii_letter; simpl;
    now rewrite orb_false_r.
Qed.

Lemma search_digit_spec (v : str) :
  re_search digit_pattern v = true <->
  exists c, In c v /\ isdecimal c = true.
Proof.
  unfold digit_pattern. rewrite search_set_spec, existsb_exists.
  split; intros (c & Hin & Hc); exists c; (split; [assumption|]);
    revert Hc; unfold in_set; simpl; now rewrite orb_false_r.
Qed.

Lemma usdt_tail_spec (start : bool) (rest : str) :
  match_here [LITERAL (ord "U"); LITERAL (ord "S"); LITERAL (ord "D");
              LITERAL (ord "T"); AT_END] start rest = true <->
  rest = py "USDT" \/ rest = py "USDT" ++ [0x0A%N].
Proof.
  change (py "USDT") with [85; 83; 68; 84]%N.
  change (ord "U") with 85%N. change (ord "S") with 83%N.
  change (ord "D") with 68%N. change (ord "T") with 84%N.
  cbn [match_here].
  destruct rest as [|c1 [|c2 [|c3 [|c4 rest]]]];
    try (rewrite ?andb_false_r; split;
         [discriminate | intros [Hr | Hr]; discriminate]).
  rewrite !andb_true_iff, !N.eqb_eq, at_end_spec. split.
  - intros (-> & -> & -> & -> & [-> | ->] & _); [left | right]; reflexivity.
  - intros [[= -> -> -> -> ->] | [= -> -> -> -> ->]]; repeat split; auto.
Qed.

(** [^[A-Z]{2,10}USDT$]: two to ten capital letters, ["USDT"], and
    possibly one newline. *)
Lemma symbol_pattern_spec (w : str) :
  re_match symbol_pattern w = true <->
  exists base,
    forallb upper_letter base = true /\ 2 <= length base <= 10
    /\ (w = base ++ py "USDT" \/ w = base ++ py "USDT" ++ [0x0A%N]).
Proof.
  unfold re_match, symbol_pattern.
  rewrite match_here_begin, match_here_repeat, andb_true_l, repeat_set_spec.
  assert (Hset : forall l, forallb (in_set [A_Z]) l = forallb upper_letter l).
  { intros l. induction l as [|c l IH]; [reflexivity|].
    cbn [forallb]. rewrite IH. f_equal.
    unfold in_set, upper_letter, A_Z. cbn [existsb in_item].
    apply orb_false_r. }
  split.
  - intros (run & rest & -> & Hrun & Hlo & Hhi & Hk).
    apply usdt_tail_spec in Hk. exists run. rewrite <- Hset.
    simpl in Hhi. split; [assumption|]. split; [lia|].
    destruct Hk as [-> | ->]; auto.
  - intros (base & Hbase & Hlen & Hw). rewrite <- Hset in Hbase.
    destruct Hw as [-> | ->].
    + exists base, (py "USDT").
      split; [reflexivity|]. split; [assumption|]. split; [lia|].
      split; [simpl; lia|]. apply usdt_tail_spec. now left.
    + exists base, (py "USDT" ++ [0x0A%N]).
      split; [reflexivity|]. split; [assumption|]. split; [lia|].
      split; [simpl; lia|]. apply usdt_tail_spec. now right.
Qed.

(** The email pattern accepts the valid addresses, each with or without
    a newline after it. *)
Lemma email_pattern_spec (s : str) :
  re_match email_pattern s = true <->
  exists e, valid_email e /\ (s = e \/ s = e ++ [0x0A%N]).
Proof.
  unfold re_match, email_pattern.
  rewrite match_here_begin, match_here_repeat, andb_true_l, repeat_set_spec.
  split.
  - intros (local & rest & -> & Hlocal & Hl & _ & Hk).
    apply match_here_literal in Hk as (rest1 & -> & Hk).
    rewrite match_here_repeat, repeat_set_spec in Hk.
    destruct Hk as (domain & rest2 & -> & Hdomain & Hd & _ & Hk).
    apply match_here_literal in Hk as (rest3 & -> & Hk).
    rewrite match_here_repeat, repeat_set_spec in Hk.
    destruct Hk as (tld & rest4 & -> & Htld & Ht & _ & Hk).
    cbn [match_here] in Hk. rewrite andb_true_r in Hk.
    apply at_end_spec in Hk.
    exists (local ++ [ord "@"] ++ domain ++ [ord "."] ++ tld). split.
    + exists local, domain, tld. rewrite <- !nonempty_length. auto 10.
    + destruct Hk as [-> | ->]; [left | right];
        rewrite <- ?app_assoc; simpl; rewrite <- ?app_assoc, ?app_nil_r;
        reflexivity.
  - intros (e & (local & domain & tld & -> & Hl & Hlocal & Hd & Hdomain
                 & Ht & Htld) & Hs).
    apply nonempty_length in Hl, Hd.
    assert (Htail : exists tail,
               at_end tail = true
               /\ s = local ++ ord "@" :: domain ++ ord "." :: tld ++ tail).
    { destruct Hs as [-> | ->]; [exists [] | exists [0x0A%N]];
        (split; [reflexivity|]);
        rewrite <- ?app_assoc; simpl; rewrite <- ?app_assoc, ?app_nil_r;
        reflexivity. }
    clear Hs. destruct Htail as (tail & Htail & ->).
    exists local, (ord "@" :: domain ++ ord "." :: tld ++ tail).
    split; [reflexivity|]. split; [assumption|]. split; [assumption|].
    split; [exact I|]. apply match_here_literal. eexists. split; [reflexivity|].
    rewrite match_here_repeat, repeat_set_spec.
    exists domain, (ord "." :: tld ++ tail).
    split; [reflexivity|]. split; [assumption|]. split; [assumption|].
    split; [exact I|]. apply match_here_literal. eexists. split; [reflexivity|].
    rewrite match_here_repeat, repeat_set_spec.
    exists tld, tail.
    split; [reflexivity|]. split; [assumption|]. split; [assumption|].
    split; [exact I|]. cbn [match_here]. now rewrite Htail.
Qed.

Ltac set_arith :=
  unfold in_set, email_local_set, email_domain_set, email_tld_set,
    a_z, A_Z, d0_9, is_ascii;
  cbn [existsb in_item]; unfold between;
  cbv beta iota delta [ord N_of_ascii N_of_digits];
  rewrite ?orb_true_iff, ?andb_true_iff, ?N.leb_le, ?N.eqb_eq, ?N.ltb_lt;
  lia.

Lemma email_local_ascii (c : cp) :
  in_set email_local_set c = true -> is_ascii c = true.
Proof. set_arith. Qed.

Lemma email_domain_ascii (c : cp) :
  in_set email_domain_set c = true -> is_ascii c = true.
Proof. set_arith. Qed.

Lemma email_tld_ascii (c : cp) :
  in_set email_tld_set c = true -> is_ascii c = true.
Proof. set_arith. Qed.

Lemma email_chars_ok (c : cp) : is_ascii c = true -> email_char_ok c = true.
Proof. apply ascii_forall. vm_compute. reflexivity. Qed.

Lemma email_char_facts (c : cp) :
  is_ascii c = true ->
  (in_set email_local_set c = true ->
   isspace c = false /\ in_set email_local_set (ascii_lower c) = true)
  /\ (in_set email_domain_set c = true ->
      in_set email_local_set c = true
      /\ in_set email_domain_set (ascii_lower c) = true)
  /\ (in_set email_tld_set c = true ->
      in_set email_domain_set c = true
      /\ in_set email_tld_set (ascii_lower c) = true)
  /\ ascii_lower (ascii_lower c) = ascii_lower c.
Proof.
  intros Hc. pose proof (email_chars_ok c Hc) as Hok.
  unfold email_char_ok in Hok. rewrite !andb_true_iff, N.eqb_eq in Hok.
  destruct Hok as [[[H1 H2] H3] H4].
  split; [|split; [|split]]; try assumption; intros Hin;
    rewrite Hin in *; simpl in *;
    rewrite andb_true_iff in *; try rewrite negb_true_iff in *; tauto.
Qed.

(** Every character of a valid address is in the local set or is the
    at sign. *)
Lemma valid_email_chars (e : str) (c : cp) :
  valid_email e -> In c e ->
  in_set email_local_set c = true \/ c = ord "@".
Proof.
  intros (local & domain & tld & -> & _ & Hlocal & _ & Hdomain & _ & Htld) Hin.
  rewrite forallb_forall in Hlocal, Hdomain, Htld.
  repeat (apply in_app_or in Hin as [Hin | Hin]).
  - left. auto.
  - right. destruct Hin as [<- | []]. reflexivity.
  - left. apply Hdomain in Hin.
    now apply (email_char_facts c (email_domain_ascii c Hin)).
  - left. destruct Hin as [<- | []]. reflexivity.
  - left. apply Htld in Hin.
    pose proof (email_char_facts c (email_tld_ascii c Hin)) as (_ & Hd & Ht & _).
    apply Ht in Hin as [Hin _]. now apply Hd in Hin.
Qed.

Lemma valid_email_char_plain (e : str) (c : cp) :
  valid_email e -> In c e -> is_ascii c = true /\ isspace c = false.
Proof.
  intros He Hin. destruct (valid_email_chars e c He Hin) as [Hc | ->].
  - pose proof (email_local_ascii c Hc) as Ha. split; [assumption|].
    now apply (email_char_facts c Ha).
  - split; reflexivity.
Qed.

Lemma forallb_map_lower (items : list set_item) (l : str) :
  (forall c, in_set items c = true -> in_set items (ascii_lower c) = true) ->
  forallb (in_set items) l = true ->
  forallb (in_set items) (List.map ascii_lower l) = true.
Proof.
  intros Hclosed. rewrite !forallb_forall. intros Hl c Hin.
  apply in_map_iff in Hin as (x & <- & Hx). auto.
Qed.

(** Lower-casing a valid address gives a valid address. *)
Lemma valid_email_lower (e : str) :
  valid_email e -> valid_email (List.map ascii_lower e).
Proof.
  intros (local & domain & tld & -> & Hl & Hlocal & Hd & Hdomain & Ht & Htld).
  exists (List.map ascii_lower local), (List.map ascii_lower domain),
    (List.map ascii_lower tld).
  split; [now rewrite !List.map_app|].
  rewrite <- !nonempty_length, !length_map, !nonempty_length.
  repeat split; try assumption; apply forallb_map_lower; try assumption;
    intros c Hc.
  - now apply (email_char_facts c (email_local_ascii c Hc)).
  - now apply (email_char_facts c (email_domain_ascii c Hc)).
  - now apply (email_char_facts c (email_tld_ascii c Hc)).
Qed.
End PatternFacts.

(** ** The validators *)

Section ValidatorFacts.
Context {ud : UnicodeData}.

(** The decision table of [validate_full_name], with the pattern read
    as a test on every character. *)
Lemma validate_full_name_table (v : str) :
  UserRegister.validate_full_name v =
  let w := html_escape (strip v) in
  if length w <? 2 then Raise Full_name_too_short
  else if 100 <? length w then Raise Full_name_too_long
  else if forallb (in_set full_name_set) w then Ok w
  else Raise Full_name_invalid_characters.
Proof.
  unfold UserRegister.validate_full_name. cbv zeta.
  set (w := html_escape (strip v)).
  destruct (Nat.ltb_spec (length w) 2) as [|Hlen]; [reflexivity|].
  destruct (100 <? length w); [reflexivity|].
  assert (Hne : w <> []) by (intros Hw; rewrite Hw in Hlen; simpl in Hlen; lia).
  pose proof (full_name_pattern_spec w) as Hspec.
  destruct (re_match full_name_pattern w), (forallb (in_set full_name_set) w);
    simpl; try reflexivity.
  - destruct Hspec as [Hspec _]. destruct (Hspec eq_refl). discriminate.
  - destruct Hspec as [_ Hspec]. now specialize (Hspec (conj Hne eq_refl)).
Qed.

(** The token validator accepts a string exactly when its length is
    between 10 and 200 and it is a run of the token set, possibly with
    one newline after it; it returns the string as it is. *)
Lemma validate_token_spec (v w : str) :
  PasswordResetConfirm.validate_token v = Ok w <->
  w = v /\ 10 <= length v <= 200
  /\ exists run, run <> [] /\ forallb (in_set token_set) run = true
                 /\ (v = run \/ v = run ++ [0x0A%N]).
Proof.
  unfold PasswordResetConfirm.validate_token.
  pose proof (token_pattern_spec v) as Hspec.
  destruct (re_match token_pattern v); simpl.
  - destruct (Nat.ltb_spec (length v) 10); simpl;
      [|destruct (Nat.ltb_spec 200 (length v))]; split;
      try (intros [=]; fail); try (intros (_ & ? & _); lia).
    + intros [= <-]. split; [reflexivity|]. split; [lia|]. now apply Hspec.
    + intros (-> & _). reflexivity.
  - split; [intros [=]|]. intros (_ & _ & Hrun).
    apply Hspec in Hrun. discriminate.
Qed.
End ValidatorFacts.

(** ** Comparison of floats *)

(** A float literal is not NaN. *)
Ltac literal_not_nan :=
  let Hc := fresh in intros Hc; vm_compute in Hc; discriminate Hc.

Lemma SFcompare_antisym (a b : float) :
  SFcompare b a = option_map CompOpp (SFcompare a b).
Proof.
  destruct a as [sa|sa| |sa ma ea], b as [sb|sb| |sb mb eb]; simpl;
    try reflexivity; try (destruct sa; reflexivity);
    try (destruct sb; reflexivity); try (destruct sa, sb; reflexivity).
  destruct sa, sb; simpl; try reflexivity;
    rewrite (Z.compare_antisym ea eb); destruct (ea ?= eb)%Z; simpl;
    try reflexivity;
    change (Pos.compare_cont Eq mb ma) with (mb ?= ma)%positive;
    change (Pos.compare_cont Eq ma mb) with (ma ?= mb)%positive;
    rewrite (Pos.compare_antisym ma mb); destruct (ma ?= mb)%positive;
    reflexivity.
Qed.

Lemma SFcompare_None (a b : float) :
  SFcompare a b = None <-> a = nan \/ b = nan.
Proof.
  unfold nan.
  destruct a as [sa|sa| |sa ma ea], b as [sb|sb| |sb mb eb]; simpl;
    split; intros Hx; auto; try discriminate;
    try (destruct Hx; discriminate).
Qed.

(** [not (v < lo or v > hi)] holds for NaN and for the numbers from
    [lo] to [hi]. *)
Lemma float_range_spec (lo hi v : float) :
  lo <> nan -> hi <> nan ->
  SFltb v lo || SFltb hi v = false <->
  v = nan \/ (SFleb lo v = true /\ SFleb v hi = true).
Proof.
  intros Hlo Hhi. unfold SFltb, SFleb.
  rewrite (SFcompare_antisym v lo), (SFcompare_antisym v hi).
  destruct (SFcompare v lo) as [c1|] eqn:E1.
  2: { apply SFcompare_None in E1 as [-> | ?]; [|contradiction].
       simpl. split; auto. }
  destruct (SFcompare v hi) as [c2|] eqn:E2.
  2: { apply SFcompare_None in E2 as [-> | ?]; [|contradiction].
       simpl in E1. discriminate. }
  assert (Hv : v <> nan) by (intros ->; simpl in E1; discriminate).
  destruct c1, c2; simpl; split; intros Hx; try discriminate; auto;
    destruct Hx as [? | [? ?]]; try contradiction; discriminate.
Qed.

Lemma range_validator_spec (lo hi v w : float) (e : ValueError) :
  lo <> nan -> hi <> nan ->
  (if SFltb v lo || SFltb hi v then Raise e else Ok v) = Ok w <->
  w = v /\ (v = nan \/ (SFleb lo v = true /\ SFleb v hi = true)).
Proof.
  intros Hlo Hhi. pose proof (float_range_spec lo hi v Hlo Hhi) as Hspec.
  destruct (SFltb v lo || SFltb hi v); split.
  - intros [=].
  - intros [_ Hx]. apply Hspec in Hx. discriminate.
  - intros [= <-]. split; [reflexivity|]. now apply Hspec.
  - intros [-> _]. reflexivity.
Qed.

(** * The claims *)

Section FullName.
Context {ud : UnicodeData}.

(** C1. [UserRegister.validate_full_name] works on the trimmed and
    HTML-escaped text: the value it returns is that text, the bounds 2
    and 100 are bounds on its length, and the character test is a test
    of its characters.  Each error is raised exactly when the escaped
    text fails the corresponding check, in that order.  The input
    ["<b>Al</b>"] is escaped to ["&lt;b&gt;Al&lt;/b&gt;"] and rejected for
    its characters; the one-character input ["<"] is rejected for its
    characters as well, not for its length, because the length is taken
    after escaping. *)
Theorem validate_full_name_escapes_first :
  (forall v w,
     UserRegister.validate_full_name v = Ok w <->
     w = html_escape (strip v) /\ 2 <= length w <= 100
     /\ forallb (in_set full_name_set) w = true)
  /\ (forall v,
        UserRegister.validate_full_name v = Raise Full_name_too_short <->
        length (html_escape (strip v)) < 2)
  /\ (forall v,
        UserRegister.validate_full_name v = Raise Full_name_too_long <->
        100 < length (html_escape (strip v)))
  /\ (forall v,
        UserRegister.validate_full_name v = Raise Full_name_invalid_characters <->
        2 <= length (html_escape (strip v)) <= 100
        /\ forallb (in_set full_name_set) (html_escape (strip v)) = false)
  /\ html_escape (strip (py "<b>Al</b>")) = py "&lt;b&gt;Al&lt;/b&gt;"
  /\ UserRegister.validate_full_name (py "<b>Al</b>")
     = Raise Full_name_invalid_characters
  /\ UserRegister.validate_full_name (py "<")
     = Raise Full_name_invalid_characters.
Proof.
  split; [|split; [|split; [|split]]].
  - intros v w. rewrite validate_full_name_table. cbv zeta.
    destruct (Nat.ltb_spec (length (html_escape (strip v))) 2);
      [|destruct (Nat.ltb_spec 100 (length (html_escape (strip v))));
        [|destruct (forallb _ (html_escape (strip v))) eqn:Hall]];
      (split; [intros [= <-] | intros (-> & Hlen & Hchars)]);
      try lia; try congruence; auto.
  - intros v. rewrite validate_full_name_table. cbv zeta.
    destruct (Nat.ltb_spec (length (html_escape (strip v))) 2);
      [|destruct (100 <? _); [|destruct (forallb _ _)]];
      (split; [intros [=] | intros Hlen]); try lia; auto.
  - intros v. rewrite validate_full_name_table. cbv zeta.
    destruct (Nat.ltb_spec (length (html_escape (strip v))) 2);
      [|destruct (Nat.ltb_spec 100 (length (html_escape (strip v))));
        [|destruct (forallb _ _)]];
      (split; [intros [=] | intros Hlen]); try lia; auto.
  - intros v. rewrite validate_full_name_table. cbv zeta.
    destruct (Nat.ltb_spec (length (html_escape (strip v))) 2);
      [|destruct (Nat.ltb_spec 100 (length (html_escape (strip v))));
        [|destruct (forallb _ (html_escape (strip v))) eqn:Hall]];
      (split; [intros [=] | intros (Hlen & Hchars)]);
      try lia; try congruence; auto with lia.
  - repeat split; reflexivity.
Qed.
End FullName.

Section Emails.
Context {ud : UnicodeData}.

(** C2. [UserRegister.validate_email] lower-cases and strips before it
    matches, so a padded address is accepted and normalised.
    [PasswordReset.validate_email] matches the raw value and only
    lower-cases what it returns: the same padded address is rejected, as
    is every input that begins with white space, and an address with a
    final newline is accepted with the newline kept. *)
Theorem password_reset_email_not_stripped :
  UserRegister.validate_email (py " A.b@C.co ") = Ok (py "a.b@c.co")
  /\ PasswordReset.validate_email (py " A.b@C.co ") = Raise Invalid_email_format
  /\ PasswordReset.validate_email (py "A.b@C.co") = Ok (py "a.b@c.co")
  /\ PasswordReset.validate_email (py "A.b@C.co" ++ [0x0A%N])
     = Ok (py "a.b@c.co" ++ [0x0A%N])
  /\ UserRegister.validate_email (py "A.b@C.co" ++ [0x0A%N]) = Ok (py "a.b@c.co")
  /\ (forall c v,
        isspace c = true ->
        PasswordReset.validate_email (c :: v) = Raise Invalid_email_format).
Proof.
  do 5 (split; [vm_compute; reflexivity|]).
  intros c v Hc. unfold PasswordReset.validate_email.
  destruct (re_match email_pattern (c :: v)) eqn:Hm; [|reflexivity].
  exfalso. apply email_pattern_spec in Hm as (e & He & Hs).
  assert (Hin : In c e).
  { destruct He as (local & domain & tld & -> & Hne & _).
    destruct local as [|x local]; [congruence|].
    destruct Hs as [Hs | Hs]; injection Hs as -> _; now left. }
  destruct (valid_email_char_plain e c He Hin) as [_ Hns]. congruence.
Qed.

(** X1. [UserRegister.validate_email] accepts every valid address padded
    with white space and returns the address alone, in lower case;
    validating the result again gives the same result. *)
Theorem register_email_normalises_padded (l e r : str) :
  spaces_uncased ->
  forallb isspace l = true -> forallb isspace r = true -> valid_email e ->
  lower (l ++ e ++ r) = l ++ List.map ascii_lower e ++ r
  /\ UserRegister.validate_email (l ++ e ++ r) = Ok (List.map ascii_lower e)
  /\ UserRegister.validate_email (List.map ascii_lower e)
     = Ok (List.map ascii_lower e).
Proof.
  intros Hud.
  assert (Hmain : forall l e r,
             forallb isspace l = true -> forallb isspace r = true ->
             valid_email e ->
             lower (l ++ e ++ r) = l ++ List.map ascii_lower e ++ r
             /\ UserRegister.validate_email (l ++ e ++ r)
                = Ok (List.map ascii_lower e)).
  { clear l e r. intros l e r Hl Hr He.
    assert (Hspaces : forall s, forallb isspace s = true ->
                                List.map ascii_lower s = s).
    { intros s Hs. rewrite forallb_forall in Hs.
      induction s as [|c s IH]; simpl; [reflexivity|].
      rewrite space_lower by (apply Hs; now left).
      f_equal. apply IH. intros x Hx. apply Hs. now right. }
    assert (Hlower : lower (l ++ e ++ r) = l ++ List.map ascii_lower e ++ r).
    { unfold lower. rewrite do_lower_plain.
      - rewrite !List.map_app, (Hspaces l Hl), (Hspaces r Hr). reflexivity.
      - rewrite forallb_forall in Hl, Hr. intros c Hin.
        apply in_app_or in Hin as [Hin | Hin];
          [|apply in_app_or in Hin as [Hin | Hin]].
        + apply space_plain; auto.
        + apply ascii_plain. now apply (valid_email_char_plain e c He).
        + apply space_plain; auto. }
    split; [assumption|].
    pose proof (valid_email_lower e He) as He'.
    unfold UserRegister.validate_email. cbv zeta. rewrite Hlower.
    rewrite strip_surrounded; try assumption.
    - replace (re_match email_pattern (List.map ascii_lower e)) with true;
        [reflexivity|].
      symmetry. apply email_pattern_spec. eauto.
    - destruct He as (local & domain & tld & -> & Hne & _).
      destruct local; [congruence | discriminate].
    - intros c Hin. now apply (valid_email_char_plain _ c He'). }
  intros Hl Hr He. destruct (Hmain l e r Hl Hr He) as [Hlow Hok].
  split; [assumption|]. split; [assumption|].
  destruct (Hmain [] (List.map ascii_lower e) [] eq_refl eq_refl
              (valid_email_lower e He)) as [_ Hagain].
  simpl in Hagain. rewrite app_nil_r, List.map_map in Hagain.
  rewrite Hagain. f_equal. apply List.map_ext. intros c.
  apply ascii_lower_idempotent.
Qed.
End Emails.

Lemma register_email_normalises_padded_witness :
  UserRegister.validate_email (ud:=ascii_only_data)
    (py " " ++ py "A.b@C.co" ++ [0x20%N; 0x0A%N])
  = Ok (py "a.b@c.co").
Proof.
  refine (proj1 (proj2 (@register_email_normalises_padded ascii_only_data
                          (py " ") (py "A.b@C.co") [0x20%N; 0x0A%N]
                          _ eq_refl eq_refl _))).
  - intros c _ _. reflexivity.
  - exists (py "A.b"), (py "C"), (py "co").
    repeat split; try reflexivity; try discriminate; simpl; lia.
Defined.

Section Credentials.
Context {ud : UnicodeData}.

(** C3. The API credential ["abc-123-xyz"] is rejected for its
    characters and the reset token ["abc-123-xyz9"] is accepted
    unchanged: the hyphen is in the token set and not in the credential
    set.  Both validators accept lengths from 10 to 200 only, and a
    credential is accepted exactly when, once trimmed, it has such a
    length and holds ASCII letters and digits only. *)
Theorem credential_and_token_charsets_differ :
  APIKeysUpdate.validate_api_credentials (py "abc-123-xyz")
  = Raise API_credential_invalid_characters
  /\ PasswordResetConfirm.validate_token (py "abc-123-xyz9")
     = Ok (py "abc-123-xyz9")
  /\ length (py "abc-123-xyz9") = 12
  /\ in_set api_credential_set (ord "-") = false
  /\ in_set token_set (ord "-") = true
  /\ (forall v w,
        APIKeysUpdate.validate_api_credentials v = Ok w <->
        w = strip v /\ 10 <= length w <= 200
        /\ forallb (in_set api_credential_set) w = true)
  /\ (forall v w,
        PasswordResetConfirm.validate_token v = Ok w ->
        w = v /\ 10 <= length w <= 200).
Proof.
  do 5 (split; [reflexivity|]). split.
  - intros v w. unfold APIKeysUpdate.validate_api_credentials. cbv zeta.
    pose proof (api_credential_pattern_spec v) as Hspec.
    destruct (Nat.ltb_spec (length (strip v)) 10); simpl;
      [|destruct (Nat.ltb_spec 200 (length (strip v))); simpl;
        [|destruct (re_match api_credential_pattern (strip v)); simpl]];
      split; try (intros [=]; fail); try (intros (-> & ? & _); lia).
    + intros [= <-]. split; [reflexivity|]. split; [lia|]. now apply Hspec.
    + reflexivity || (intros (-> & _); reflexivity).
    + intros (-> & Hlen & Hall).
      assert (Hne : strip v <> [])
        by (intros Hs; rewrite Hs in Hlen; simpl in Hlen; lia).
      destruct Hspec as [_ Hspec]. specialize (Hspec (conj Hne Hall)).
      discriminate.
  - intros v w Hok. apply validate_token_spec in Hok as (-> & Hlen & _). auto.
Qed.
End Credentials.

Section Passwords.
Context {ud : UnicodeData}.

(** C4. The registration password validator accepts exactly the strings
    of 6 to 128 characters that hold a letter of [[A-Za-z]] and a
    decimal digit, and returns them unchanged.  ["abc123"] is accepted,
    ["abcdef"] and ["123456"] are rejected as weak, ["a1"] as too short,
    and every string of 129 characters as too long. *)
Theorem validate_password_accepts_exactly :
  (forall v w,
     UserRegister.validate_password v = Ok w <->
     w = v /\ 6 <= length v <= 128
     /\ (exists c, In c v /\ ascii_letter c = true)
     /\ (exists c, In c v /\ isdecimal c = true))
  /\ UserRegister.validate_password (py "abc123") = Ok (py "abc123")
  /\ UserRegister.validate_password (py "abcdef") = Raise Password_weak
  /\ UserRegister.validate_password (py "123456") = Raise Password_weak
  /\ UserRegister.validate_password (py "a1") = Raise Password_too_short
  /\ (forall v, length v = 129 ->
        UserRegister.validate_password v = Raise Password_too_long).
Proof.
  split; [|do 4 (split; [reflexivity|])].
  - intros v w. unfold UserRegister.validate_password.
    rewrite <- search_letter_spec, <- search_digit_spec.
    destruct (Nat.ltb_spec (length v) 6);
      [|destruct (Nat.ltb_spec 128 (length v));
        [|destruct (re_search letter_pattern v), (re_search digit_pattern v)]];
      simpl; (split; [intros [= <-] | intros (-> & Hlen & Hl & Hd)]);
      try lia; try discriminate; auto.
  - intros v Hlen. unfold UserRegister.validate_password. rewrite Hlen.
    reflexivity.
Qed.

(** C5. [PasswordResetConfirm.validate_password] and
    [UserRegister.validate_password] accept the same strings, and each
    returns an accepted string unchanged. *)
Theorem new_password_same_rule_as_registration :
  (forall v w,
     PasswordResetConfirm.validate_password v = Ok w <->
     UserRegister.validate_password v = Ok w)
  /\ (forall v,
        is_ok (PasswordResetConfirm.validate_password v)
        = is_ok (UserRegister.validate_password v))
  /\ (forall v w, UserRegister.validate_password v = Ok w -> w = v)
  /\ (forall v w, PasswordResetConfirm.validate_password v = Ok w -> w = v).
Proof.
  unfold PasswordResetConfirm.validate_password, UserRegister.validate_password.
  split; [|split; [|split]]; intros v; try intros w;
    destruct (length v <? 6), (128 <? length v),
      (re_search letter_pattern v), (re_search digit_pattern v);
    simpl; try reflexivity; try (intros [= <-]; reflexivity);
    try (split; intros Hx; (discriminate || exact Hx)).
Qed.
End Passwords.

Section Symbols.
Context {ud : UnicodeData}.

(** C6. [BotControl.validate_symbol] lets an absent symbol through.  A
    symbol that is present is accepted exactly when, upper-cased and
    then trimmed, it is two to ten capital letters followed by
    ["USDT"], and that text is the result: the pattern decides, and the
    length error is raised only for a text shorter than 3 or longer
    than 20.  ["btcusdt"] gives ["BTCUSDT"], ["BTCUSD"] is rejected for
    its format.  [validate_action] accepts ["start"] and ["stop"] only,
    so ["buy"] is rejected. *)
Theorem validate_symbol_usdt_pairs :
  BotControl.validate_symbol None = Ok None
  /\ (forall v w,
        BotControl.validate_symbol (Some v) = Ok w <->
        exists base,
          w = Some (base ++ py "USDT")
          /\ strip (upper v) = base ++ py "USDT"
          /\ forallb upper_letter base = true /\ 2 <= length base <= 10)
  /\ (forall v,
        BotControl.validate_symbol (Some v) = Raise Symbol_length <->
        length (strip (upper v)) < 3 \/ 20 < length (strip (upper v)))
  /\ BotControl.validate_symbol (Some (py "btcusdt")) = Ok (Some (py "BTCUSDT"))
  /\ BotControl.validate_symbol (Some (py "BTCUSD")) = Raise Invalid_symbol_format
  /\ (forall v w,
        BotControl.validate_action v = Ok w <->
        w = v /\ (v = py "start" \/ v = py "stop"))
  /\ BotControl.validate_action (py "buy") = Raise Invalid_action.
Proof.
  split; [reflexivity|]. split; [|split; [|split; [|split; [|split]]]];
    try reflexivity.
  - intros v w. unfold BotControl.validate_symbol. cbv zeta.
    pose proof (symbol_pattern_spec (strip (upper v))) as Hspec.
    split.
    + destruct (Nat.ltb_spec (length (strip (upper v))) 3); simpl;
        [intros [=]|].
      destruct (Nat.ltb_spec 20 (length (strip (upper v)))); simpl;
        [intros [=]|].
      destruct (re_match symbol_pattern (strip (upper v))); simpl;
        [|intros [=]].
      intros [= <-]. destruct Hspec as [Hspec _].
      destruct (Hspec eq_refl) as (base & Hbase & Hlen & [Hw | Hw]).
      * exists base. rewrite Hw. auto.
      * change (base ++ py "USDT" ++ [0x0A%N])
          with (base ++ py "USD" ++ [ord "T"] ++ [0x0A%N]) in Hw.
        rewrite !app_assoc in Hw. apply strip_last in Hw. discriminate.
    + intros (base & -> & Hw & Hbase & Hlen).
      assert (Hl : length (strip (upper v)) = length base + 4)
        by (rewrite Hw, length_app; reflexivity).
      destruct (Nat.ltb_spec (length (strip (upper v))) 3); [lia|].
      destruct (Nat.ltb_spec 20 (length (strip (upper v)))); [lia|].
      simpl. destruct Hspec as [_ Hspec]. rewrite Hspec.
      * simpl. now rewrite Hw.
      * exists base. auto.
  - intros v. unfold BotControl.validate_symbol. cbv zeta.
    destruct (Nat.ltb_spec (length (strip (upper v))) 3); simpl;
      [split; [lia | reflexivity]|].
    destruct (Nat.ltb_spec 20 (length (strip (upper v)))); simpl;
      [split; [lia | reflexivity]|].
    destruct (re_match symbol_pattern (strip (upper v))); simpl;
      (split; [intros [=] | lia]).
  - intros v w. unfold BotControl.validate_action.
    pose proof (str_in_In v [py "start"; py "stop"]) as Hin.
    destruct (str_in v [py "start"; py "stop"]); simpl.
    + destruct Hin as [Hin _]. specialize (Hin eq_refl). simpl in Hin.
      split; [intros [= <-] | intros [-> _]; reflexivity].
      split; [reflexivity|]. destruct Hin as [<- | [<- | []]]; auto.
    + split; [intros [=]|]. intros (-> & Hv).
      destruct Hin as [_ Hin]. enough (false = true) by discriminate.
      apply Hin. simpl. destruct Hv as [-> | ->]; auto.
Qed.
End Symbols.

(** C7. The bounds of [BotSettings].  [validate_leverage] accepts the
    integers from 1 to 20, so 20 passes and 25 does not, and
    [validate_timeframe] accepts the five listed strings, so ["30m"]
    does not pass.  The three float validators accept the numbers of
    their interval, both ends included, and they also accept NaN, for
    which both comparisons of the guard are false. *)
Theorem bot_settings_bounds_and_nan :
  (forall v w,
     BotSettings.validate_order_size v = Ok w <->
     w = v /\ (v = nan \/ (SFleb (float_of_Z 10) v = true
                           /\ SFleb v (float_of_Z 1000) = true)))
  /\ (forall v w,
        BotSettings.validate_stop_loss v = Ok w <->
        w = v /\ (v = nan \/ (SFleb (float_of_Z 1) v = true
                              /\ SFleb v (float_of_Z 10) = true)))
  /\ (forall v w,
        BotSettings.validate_take_profit v = Ok w <->
        w = v /\ (v = nan \/ (SFleb (float_of_Z 2) v = true
                              /\ SFleb v (float_of_Z 20) = true)))
  /\ BotSettings.validate_order_size nan = Ok nan
  /\ BotSettings.validate_stop_loss nan = Ok nan
  /\ BotSettings.validate_take_profit nan = Ok nan
  /\ (forall v w,
        BotSettings.validate_leverage v = Ok w <-> w = v /\ (1 <= v <= 20)%Z)
  /\ BotSettings.validate_leverage 20 = Ok 20%Z
  /\ BotSettings.validate_leverage 25 = Raise Leverage_range
  /\ (forall v w,
        BotSettings.validate_timeframe v = Ok w <->
        w = v /\ In v BotSettings.timeframes)
  /\ BotSettings.validate_timeframe (py "30m") = Raise Invalid_timeframe.
Proof.
  split; [|split; [|split]];
    try (intros v w; apply range_validator_spec; literal_not_nan).
  do 3 (split; [reflexivity|]). split; [|do 2 (split; [reflexivity|]); split].
  - intros v w. unfold BotSettings.validate_leverage.
    destruct (Z.ltb_spec v 1); simpl;
      [|destruct (Z.ltb_spec 20 v); simpl];
      (split; [intros [= <-] | intros [-> Hv]]); try lia; auto.
  - intros v w. unfold BotSettings.validate_timeframe.
    pose proof (str_in_In v BotSettings.timeframes) as Hin.
    destruct (str_in v BotSettings.timeframes); simpl; split.
    + intros [= <-]. split; [reflexivity|]. now apply Hin.
    + intros [-> _]. reflexivity.
    + intros [=].
    + intros [_ Hv]. apply Hin in Hv. discriminate.
  - reflexivity.
Qed.

(** C8. A record that gives the four required strings, leaves the five
    optional fields out, and gives the fields with a default either not
    at all or with a value of their type, builds a [UserData] whose
    optional fields are all [None]. *)
Theorem user_data_optional_fields_absent
    (kw : gmap string raw) (u e f h : str)
    (r : UserRole) (st : SubscriptionStatus) (blocked testnet : bool) :
  kw !! "uid" = Some (RStr u) ->
  kw !! "email" = Some (RStr e) ->
  kw !! "full_name" = Some (RStr f) ->
  kw !! "password_hash" = Some (RStr h) ->
  with_default as_role kw "role" USER = Valid r ->
  with_default as_subscription_status kw "subscription_status" TRIAL = Valid st ->
  with_default as_bool kw "is_blocked" false = Valid blocked ->
  with_default as_bool kw "is_testnet" false = Valid testnet ->
  (forall name, In name UserData.optional_fields -> kw !! name = None) ->
  UserData.init kw =
  Valid {| UserData.uid := u; UserData.email := e; UserData.full_name := f;
           UserData.password_hash := h; UserData.role := r;
           UserData.subscription_status := st;
           UserData.trial_end_date := None;
           UserData.subscription_end_date := None;
           UserData.created_at := None;
           UserData.is_blocked := blocked;
           UserData.api_key_encrypted := None;
           UserData.api_secret_encrypted := None;
           UserData.is_testnet := testnet |}.
Proof.
  intros Hu He Hf Hh Hr Hst Hb Ht Hopt.
  unfold UserData.init. rewrite Hr, Hst, Hb, Ht.
  unfold required. rewrite Hu, He, Hf, Hh.
  unfold with_default.
  rewrite !Hopt by (unfold UserData.optional_fields; simpl; auto 10).
  reflexivity.
Qed.

Lemma user_data_optional_fields_absent_witness :
  UserData.init minimal_user_record =
  Valid {| UserData.uid := py "u1"; UserData.email := py "a@b.co";
           UserData.full_name := py "Al";
           UserData.password_hash := py "x"; UserData.role := USER;
           UserData.subscription_status := TRIAL;
           UserData.trial_end_date := None;
           UserData.subscription_end_date := None;
           UserData.created_at := None;
           UserData.is_blocked := false;
           UserData.api_key_encrypted := None;
           UserData.api_secret_encrypted := None;
           UserData.is_testnet := false |}.
Proof.
  apply (user_data_optional_fields_absent minimal_user_record);
    try reflexivity.
  intros name Hin. simpl in Hin.
  repeat (destruct Hin as [<- | Hin]; [reflexivity|]). destruct Hin.
Defined.

Section FullNameEntities.
Context {ud : UnicodeData}.

(** C9 (amended). A full name that holds an apostrophe, an ampersand or
    a double quote is always rejected: escaping puts an ampersand into
    the text, which the permitted set does not hold.  The error is the
    invalid-characters one when the escaped text has at most 100
    characters, and the too-long one when it has more, since the length
    is checked first. *)
Theorem full_name_with_entity_rejected (v : str) :
  In (ord "'") v \/ In (ord "&") v \/ In 0x22%N v ->
  UserRegister.validate_full_name v =
  Raise (if 100 <? length (html_escape (strip v))
         then Full_name_too_long else Full_name_invalid_characters).
Proof.
  intros Hin.
  assert (Hc : exists c e, In c v /\ entity c = Some e /\ isspace c = false).
  { destruct Hin as [Hin | [Hin | Hin]]; eexists; eexists;
      (split; [exact Hin | split; reflexivity]). }
  destruct Hc as (c & e & Hcv & He & Hsp).
  apply strip_keeps in Hcv; [|assumption].
  destruct (html_escape_entity _ _ _ Hcv He) as [Hamp Hlen].
  rewrite validate_full_name_table. cbv zeta.
  destruct (Nat.ltb_spec (length (html_escape (strip v))) 2); [lia|].
  destruct (100 <? length (html_escape (strip v))); [reflexivity|].
  destruct (forallb (in_set full_name_set) (html_escape (strip v))) eqn:Hall;
    [|reflexivity].
  rewrite forallb_forall in Hall. apply Hall in Hamp. discriminate.
Qed.
End FullNameEntities.

(** C9, as stated, fails: 95 letters and an apostrophe are escaped to
    101 characters, and the error is the too-long one. *)
Lemma full_name_with_apostrophe_too_long :
  In (ord "'") (repeat (ord "a") 95 ++ py "'")
  /\ (forall ud : UnicodeData,
        UserRegister.validate_full_name (repeat (ord "a") 95 ++ py "'")
        = Raise Full_name_too_long)
  /\ Raise (A:=str) Full_name_too_long <> Raise Full_name_invalid_characters.
Proof.
  split; [|split].
  - apply in_or_app. right. left. reflexivity.
  - intros ud. vm_compute. reflexivity.
  - discriminate.
Qed.

Lemma full_name_with_entity_rejected_witness :
  In (ord "'") (py "O'Brien")
  /\ UserRegister.validate_full_name (ud:=ascii_only_data) (py "O'Brien")
     = Raise Full_name_invalid_characters.
Proof.
  assert (Hin : In (ord "'") (py "O'Brien")) by (right; left; reflexivity).
  split; [exact Hin|].
  exact (@full_name_with_entity_rejected ascii_only_data (py "O'Brien")
           (or_introl Hin)).
Defined.

Section Tokens.
Context {ud : UnicodeData}.

(** C10. A run of 9 to 199 characters of the token set followed by a
    newline passes [validate_token] and is returned with the newline,
    although the newline is not in the token set: [$] matches before a
    final newline. *)
Theorem validate_token_accepts_trailing_newline (run : str) :
  forallb (in_set token_set) run = true ->
  9 <= length run <= 199 ->
  in_set token_set 0x0A = false
  /\ re_match token_pattern (run ++ [0x0A%N]) = true
  /\ PasswordResetConfirm.validate_token (run ++ [0x0A%N])
     = Ok (run ++ [0x0A%N]).
Proof.
  intros Hrun Hlen.
  assert (Hne : run <> []) by (intros ->; simpl in Hlen; lia).
  split; [reflexivity|]. split.
  - apply token_pattern_spec. exists run. auto.
  - apply validate_token_spec. split; [reflexivity|]. split.
    + rewrite length_app. simpl. lia.
    + exists run. auto.
Qed.
End Tokens.

Lemma validate_token_accepts_trailing_newline_witness :
  length (py "abcdef1234" ++ [0x0A%N]) = 11
  /\ PasswordResetConfirm.validate_token (ud:=ascii_only_data)
       (py "abcdef1234" ++ [0x0A%N])
     = Ok (py "abcdef1234" ++ [0x0A%N]).
Proof.
  split; [reflexivity|].
  refine (proj2 (proj2 (@validate_token_accepts_trailing_newline
                          ascii_only_data (py "abcdef1234") eq_refl _))).
  simpl. lia.
Defined.

Section Others.
Context {ud : UnicodeData}.

End Others.

(** * Further properties of the validators *)

(** ** More on [strip] *)

Lemma rstrip_head (s t : str) (c : cp) :
  rstrip s = c :: t -> exists t', s = c :: t'.
Proof.
  intros Hr. destruct (rstrip_split s) as (r & Hs & _).
  rewrite Hr in Hs. simpl in Hs. eauto.
Qed.

Lemma strip_head (s t : str) (c : cp) :
  strip s = c :: t -> isspace c = false.
Proof.
  unfold strip. intros Hs. apply rstrip_head in Hs as (t' & Hl).
  eapply lstrip_head; eassumption.
Qed.

(** A string that begins and ends with a character that is not white
    space is left alone. *)
Lemma strip_ends (s rest pre : str) (x y : cp) :
  s = x :: rest -> s = pre ++ [y] ->
  isspace x = false -> isspace y = false -> strip s = s.
Proof.
  intros Hx Hy Hsx Hsy. unfold strip.
  rewrite Hx, lstrip_fixed by assumption. rewrite <- Hx, Hy.
  now apply rstrip_fixed.
Qed.

Lemma strip_nil : strip [] = [].
Proof. reflexivity. Qed.

Lemma strip_strip (s : str) : strip (strip s) = strip s.
Proof.
  destruct (strip s) as [|a t] eqn:Hs; [reflexivity|].
  assert (Hne : a :: t <> []) by discriminate.
  destruct (exists_last Hne) as (pre & z & Hz).
  apply (strip_ends _ t pre a z); auto.
  - eapply strip_head; eassumption.
  - rewrite Hz in Hs. eapply strip_last; eassumption.
Qed.

Lemma lstrip_all_space (s : str) :
  forallb isspace s = true -> lstrip s = [].
Proof.
  induction s as [|c s IH]; simpl; [reflexivity|].
  rewrite andb_true_iff. intros [-> Hs]. auto.
Qed.

Lemma lstrip_app_kept (s r : str) :
  lstrip s <> [] -> lstrip (s ++ r) = lstrip s ++ r.
Proof.
  induction s as [|c s IH]; simpl; [congruence|].
  destruct (isspace c); [assumption | reflexivity].
Qed.

Lemma lstrip_nil_all_space (s : str) :
  lstrip s = [] -> forallb isspace s = true.
Proof.
  induction s as [|c s IH]; simpl; [reflexivity|].
  destruct (isspace c); [assumption | discriminate].
Qed.

Lemma rstrip_all_space (s : str) :
  forallb isspace s = true -> rstrip s = [].
Proof.
  intros Hs. unfold rstrip. rewrite lstrip_all_space; [reflexivity|].
  rewrite forallb_forall in *. intros x Hx. apply Hs. now apply in_rev.
Qed.

(** White space around a string does not change what [strip] gives. *)
Lemma strip_padding (l s r : str) :
  forallb isspace l = true -> forallb isspace r = true ->
  strip (l ++ s ++ r) = strip s.
Proof.
  intros Hl Hr. unfold strip. rewrite lstrip_spaces_app by assumption.
  destruct (lstrip s) as [|a t] eqn:Hs.
  - apply lstrip_nil_all_space in Hs.
    rewrite lstrip_all_space by (rewrite forallb_app, Hs, Hr; reflexivity).
    reflexivity.
  - rewrite lstrip_app_kept by (rewrite Hs; discriminate).
    rewrite Hs. now apply rstrip_app_spaces.
Qed.

(** ** More on [html.escape] *)

Lemma html_escape_app (a b : str) :
  html_escape (a ++ b) = html_escape a ++ html_escape b.
Proof. rewrite !html_escape_flat_map. apply flat_map_app. Qed.

Lemma html_escape_cons (c : cp) (s : str) :
  html_escape (c :: s) = html_escape [c] ++ html_escape s.
Proof. apply (html_escape_app [c] s). Qed.

(** The characters that get an entity. *)
Lemma entity_Some (c : cp) :
  entity c <> None <->
  c = ord "&" \/ c = ord "<" \/ c = ord ">" \/ c = 0x22%N \/ c = ord "'".
Proof.
  unfold entity.
  repeat match goal with
  | |- context [(c =? ?k)%N] =>
      destruct (N.eqb_spec c k) as [-> | ?];
      [split; [intros _; auto 6 | discriminate]|]
  end.
  split; [congruence|]. intros [|[|[|[|]]]]; contradiction.
Qed.

(** A string without such a character is left alone. *)
Lemma html_escape_plain (s : str) :
  (forall c, In c s -> entity c = None) -> html_escape s = s.
Proof.
  induction s as [|c s IH]; intros Hs; [reflexivity|].
  rewrite html_escape_cons, html_escape_char, (Hs c) by now left.
  simpl. f_equal. apply IH. intros x Hx. apply Hs. now right.
Qed.

(** Of the five characters only the ampersand is left in an escaped
    string. *)
Lemma html_escape_chars (s : str) (c : cp) :
  In c (html_escape s) -> entity c = None \/ c = ord "&".
Proof.
  rewrite html_escape_flat_map, in_flat_map. intros (x & _ & Hc).
  rewrite html_escape_char in Hc. unfold entity in Hc.
  repeat match type of Hc with
  | context [(x =? ?k)%N] =>
      destruct (N.eqb_spec x k) as [_ | ?];
      [simpl in Hc;
       repeat (destruct Hc as [<- | Hc]; [auto|]); destruct Hc|]
  end.
  simpl in Hc. destruct Hc as [<- | []]. left. unfold entity.
  repeat match goal with
  | Hne : x <> ?k |- context [(x =? ?k)%N] =>
      replace (x =? k)%N with false by (symmetry; now apply N.eqb_neq)
  end.
  reflexivity.
Qed.

(** An ampersand in the escaped string comes from a character with an
    entity. *)
Lemma html_escape_ampersand (s : str) :
  In (ord "&") (html_escape s) <-> exists c, In c s /\ entity c <> None.
Proof.
  split.
  - rewrite html_escape_flat_map, in_flat_map. intros (x & Hx & Hc).
    exists x. split; [assumption|]. intros Hnone.
    rewrite html_escape_char, Hnone in Hc. destruct Hc as [Heq | []].
    rewrite Heq in Hnone. discriminate.
  - intros (c & Hin & Hc). destruct (entity c) as [e|] eqn:He; [|congruence].
    now apply (html_escape_entity s e c).
Qed.

Lemma html_escape_length (s : str) : length s <= length (html_escape s).
Proof.
  induction s as [|c s IH]; [simpl; lia|].
  rewrite html_escape_cons, length_app, html_escape_char.
  change (length (c :: s)) with (S (length s)).
  assert (1 <= length (match entity c with Some e => e | None => [c] end)).
  { unfold entity. repeat (destruct (_ =? _)%N; [simpl; lia|]). simpl. lia. }
  unfold str, cp in *. lia.
Qed.

(** Escaping a string with a character that has an entity makes it
    longer. *)
Lemma html_escape_grows (s : str) (c : cp) :
  In c s -> entity c <> None -> length s < length (html_escape s).
Proof.
  intros Hin Hc. apply in_split in Hin as (a & b & ->).
  rewrite html_escape_app, html_escape_cons, !length_app, html_escape_char.
  pose proof (html_escape_length a). pose proof (html_escape_length b).
  change (length (c :: b)) with (S (length b)).
  assert (2 <= length (match entity c with Some e => e | None => [c] end)).
  { revert Hc. unfold entity.
    repeat (destruct (_ =? _)%N; [intros _; simpl; lia|]). congruence. }
  unfold str, cp in *. lia.
Qed.

(** Escaping keeps a stripped string stripped. *)
Lemma html_escape_stripped (t : str) :
  strip t = t -> strip (html_escape t) = html_escape t.
Proof.
  intros Ht. destruct t as [|a t'] eqn:Et; [reflexivity|].
  assert (Hne : a :: t' <> []) by discriminate.
  destruct (exists_last Hne) as (pre & z & Hz).
  assert (Ha : isspace a = false) by (eapply strip_head; eassumption).
  assert (Hzs : isspace z = false)
    by (rewrite Hz in Ht; eapply strip_last; eassumption).
  assert (Hfirst : exists x rest, html_escape [a] = x :: rest /\ isspace x = false).
  { rewrite html_escape_char. destruct (entity a) as [e|] eqn:He.
    - exists (ord "&"), (tl e). revert He. unfold entity.
      repeat (destruct (_ =? _)%N; [intros [= <-]; split; reflexivity|]).
      discriminate.
    - exists a, []. auto. }
  assert (Hlast : exists pre' y, html_escape [z] = pre' ++ [y] /\ isspace y = false).
  { rewrite html_escape_char. destruct (entity z) as [e|] eqn:He.
    - exists (removelast e), (ord ";"). revert He. unfold entity.
      repeat (destruct (_ =? _)%N; [intros [= <-]; split; reflexivity|]).
      discriminate.
    - exists [], z. auto. }
  destruct Hfirst as (x & rest & Hx & Hxs), Hlast as (pre' & y & Hy & Hys).
  apply (strip_ends _ (rest ++ html_escape t') (html_escape pre ++ pre') x y);
    auto.
  - now rewrite html_escape_cons, Hx.
  - rewrite Hz, html_escape_app, Hy. now rewrite app_assoc.
Qed.

(** ** Full names and messages *)

Section Sanitised.
Context {ud : UnicodeData}.

(** A character of the full-name set other than the apostrophe has no
    entity. *)
Lemma full_name_char_plain (c : cp) :
  in_set full_name_set c = true -> c <> ord "'" -> entity c = None.
Proof.
  intros Hin Hne. destruct (entity c) as [e|] eqn:He; [|reflexivity].
  assert (Hc : entity c <> None) by congruence.
  apply entity_Some in Hc as [-> | [-> | [-> | [-> | ->]]]];
    try discriminate. congruence.
Qed.

(** X5. An accepted full name is the stripped input itself: escaping
    never changes a name that passes, because a name with any of the five
    escaped characters is rejected.  The validator accepts exactly the
    inputs whose stripped text has 2 to 100 characters, all of them in
    the permitted set and none an apostrophe; validating an accepted
    name again returns it unchanged, and white space around the input
    changes nothing. *)
Theorem accepted_full_name_is_stripped_input :
  (forall v w,
     UserRegister.validate_full_name v = Ok w <->
     w = strip v /\ 2 <= length (strip v) <= 100
     /\ (forall c, In c (strip v) ->
           in_set full_name_set c = true /\ c <> ord "'"))
  /\ (forall v w,
        UserRegister.validate_full_name v = Ok w ->
        UserRegister.validate_full_name w = Ok w)
  /\ (forall l v r,
        forallb isspace l = true -> forallb isspace r = true ->
        UserRegister.validate_full_name (l ++ v ++ r)
        = UserRegister.validate_full_name v).
Proof.
  assert (Hiff : forall v w,
     UserRegister.validate_full_name v = Ok w <->
     w = strip v /\ 2 <= length (strip v) <= 100
     /\ (forall c, In c (strip v) ->
           in_set full_name_set c = true /\ c <> ord "'")).
  { intros v w. rewrite validate_full_name_table. cbv zeta. split.
    - destruct (length (html_escape (strip v)) <? 2) eqn:H2; [discriminate|].
      destruct (100 <? length (html_escape (strip v))) eqn:H100; [discriminate|].
      destruct (forallb (in_set full_name_set) (html_escape (strip v))) eqn:Hall;
        [|discriminate].
      intros [= <-]. rewrite forallb_forall in Hall.
      assert (Hplain : forall c, In c (strip v) -> entity c = None).
      { intros c Hc. destruct (entity c) as [e|] eqn:He; [|reflexivity].
        assert (Hamp : In (ord "&") (html_escape (strip v)))
          by (apply html_escape_ampersand; exists c; split; congruence).
        apply Hall in Hamp. discriminate. }
      rewrite (html_escape_plain _ Hplain) in *.
      apply Nat.ltb_ge in H2, H100.
      split; [reflexivity|]. split; [lia|]. intros c Hc. split; [auto|].
      intros ->. specialize (Hplain _ Hc). discriminate.
    - intros (-> & Hlen & Hchars).
      assert (Hplain : forall c, In c (strip v) -> entity c = None).
      { intros c Hc. destruct (Hchars c Hc). now apply full_name_char_plain. }
      rewrite (html_escape_plain _ Hplain).
      destruct (Nat.ltb_spec (length (strip v)) 2); [lia|].
      destruct (Nat.ltb_spec 100 (length (strip v))); [lia|].
      replace (forallb (in_set full_name_set) (strip v)) with true; [reflexivity|].
      symmetry. apply forallb_forall. intros c Hc. now apply Hchars. }
  split; [exact Hiff|]. split.
  - intros v w Hok. apply Hiff in Hok as (-> & Hlen & Hchars).
    apply Hiff. rewrite strip_strip. auto.
  - intros l v r Hl Hr. unfold UserRegister.validate_full_name.
    now rewrite strip_padding.
Qed.

(** X6. A message that passes [validate_message] holds none of the
    characters [<], [>], the double quote and the apostrophe; it is at
    least as long as the stripped input, at most 500 characters long,
    and has no white space at either end. *)
Theorem validated_message_has_no_markup (v w : str) :
  PaymentNotification.validate_message (Some v) = Ok (Some w) ->
  (forall c, In c w ->
     c <> ord "<" /\ c <> ord ">" /\ c <> 0x22%N /\ c <> ord "'")
  /\ length (strip v) <= length w <= 500
  /\ strip w = w.
Proof.
  unfold PaymentNotification.validate_message. cbv zeta.
  destruct (Nat.ltb_spec 500 (length (html_escape (strip v)))); [discriminate|].
  intros [= <-]. split; [|split].
  - intros c Hc. apply html_escape_chars in Hc as [Hc | ->].
    + repeat split; intros ->; discriminate.
    + repeat split; discriminate.
  - split; [apply html_escape_length | assumption].
  - apply html_escape_stripped, strip_strip.
Qed.

Lemma validated_message_fixed (v w : str) :
  PaymentNotification.validate_message (Some v) = Ok (Some w) ->
  w = html_escape (strip v) /\ length w <= 500 /\ strip w = w.
Proof.
  unfold PaymentNotification.validate_message. cbv zeta.
  destruct (Nat.ltb_spec 500 (length (html_escape (strip v)))); [discriminate|].
  intros [= <-]. split; [reflexivity|]. split; [assumption|].
  apply html_escape_stripped, strip_strip.
Qed.

(** X7. Validating an accepted message a second time returns it
    unchanged exactly when the stripped input held none of the five
    escaped characters; otherwise the second pass escapes the
    ampersands of the first, and the result is longer or is rejected. *)
Theorem message_revalidation (v w : str) :
  PaymentNotification.validate_message (Some v) = Ok (Some w) ->
  (PaymentNotification.validate_message (Some w) = Ok (Some w) <->
   forall c, In c (strip v) -> entity c = None)
  /\ (forall w',
        PaymentNotification.validate_message (Some w) = Ok (Some w') ->
        w' = html_escape w /\ length w <= length w').
Proof.
  intros Hok.
  destruct (validated_message_fixed v w Hok) as (Hw & Hlen & Hstrip).
  unfold PaymentNotification.validate_message. cbv zeta. rewrite Hstrip.
  split.
  - split.
    + destruct (500 <? length (html_escape w)); [discriminate|].
      intros [= Hfix] c Hc. destruct (entity c) as [e|] eqn:He; [|reflexivity].
      exfalso. subst w.
      assert (Hamp : In (ord "&") (html_escape (strip v)))
        by (apply html_escape_ampersand; exists c; split; congruence).
      pose proof (html_escape_grows _ _ Hamp) as Hgrow.
      rewrite Hfix in Hgrow. enough (length (html_escape (strip v))
                                     < length (html_escape (strip v))) by lia.
      apply Hgrow. discriminate.
    + intros Hplain. subst w. rewrite (html_escape_plain _ Hplain) in *.
      rewrite (html_escape_plain _ Hplain).
      destruct (Nat.ltb_spec 500 (length (strip v))); [lia | reflexivity].
  - intros w'. destruct (500 <? length (html_escape w)); [discriminate|].
    intros [= <-]. split; [reflexivity | apply html_escape_length].
Qed.
End Sanitised.

Lemma validated_message_has_no_markup_witness :
  PaymentNotification.validate_message (Some (py " <b>a&b</b> "))
  = Ok (Some (py "&lt;b&gt;a&amp;b&lt;/b&gt;"))
  /\ strip (py "&lt;b&gt;a&amp;b&lt;/b&gt;") = py "&lt;b&gt;a&amp;b&lt;/b&gt;".
Proof.
  split; [reflexivity|].
  exact (proj2 (proj2 (validated_message_has_no_markup
                         (py " <b>a&b</b> ")
                         (py "&lt;b&gt;a&amp;b&lt;/b&gt;") eq_refl))).
Defined.

Lemma message_revalidation_witness :
  PaymentNotification.validate_message (Some (py "a&b")) = Ok (Some (py "a&amp;b"))
  /\ (forall w',
        PaymentNotification.validate_message (Some (py "a&amp;b")) = Ok (Some w') ->
        w' = html_escape (py "a&amp;b") /\ length (py "a&amp;b") <= length w').
Proof.
  split; [reflexivity|].
  exact (proj2 (message_revalidation (py "a&b") (py "a&amp;b") eq_refl)).
Defined.

(** ** Addresses *)

Section AddressFacts.
Context {ud : UnicodeData}.

Lemma lower_ascii (s : str) :
  forallb is_ascii s = true -> lower s = List.map ascii_lower s.
Proof.
  intros Hs. unfold lower. apply do_lower_plain. intros c Hc.
  apply ascii_plain. rewrite forallb_forall in Hs. auto.
Qed.

Lemma upper_ascii (s : str) :
  forallb is_ascii s = true -> upper s = List.map ascii_upper s.
Proof.
  unfold upper. induction s as [|c s IH]; simpl; [reflexivity|].
  rewrite andb_true_iff. intros [Hc Hs]. unfold toupper_full at 1.
  rewrite Hc. simpl. f_equal. auto.
Qed.

(** A string the email pattern accepts is made of ASCII characters. *)
Lemma email_match_ascii (v : str) :
  re_match email_pattern v = true -> forallb is_ascii v = true.
Proof.
  intros Hm. apply email_pattern_spec in Hm as (e & He & Hv).
  assert (Hascii : forallb is_ascii e = true).
  { apply forallb_forall. intros c Hc.
    now apply (valid_email_char_plain e c He). }
  destruct Hv as [-> | ->]; [assumption|].
  rewrite forallb_app, Hascii. reflexivity.
Qed.

(** The lower case of an accepted string, stripped, is a valid
    address. *)
Lemma email_match_lower_strip (v : str) :
  re_match email_pattern v = true ->
  exists e, valid_email e /\ (v = e \/ v = e ++ [0x0A%N])
            /\ strip (List.map ascii_lower v) = List.map ascii_lower e.
Proof.
  intros Hm. apply email_pattern_spec in Hm as (e & He & Hv).
  exists e. split; [assumption|]. split; [assumption|].
  pose proof (valid_email_lower e He) as He'.
  assert (Hne : List.map ascii_lower e <> []).
  { destruct He' as (local & domain & tld & -> & Hne & _).
    destruct local; [congruence | discriminate]. }
  assert (Hns : forall c, In c (List.map ascii_lower e) -> isspace c = false)
    by (intros c Hc; now apply (valid_email_char_plain _ c He')).
  destruct Hv as [-> | ->].
  - rewrite <- (app_nil_r (List.map ascii_lower e)) at 1.
    now apply (strip_surrounded [] _ []).
  - rewrite List.map_app. now apply (strip_surrounded [] _ [0x0A%N]).
Qed.

(** X8. An address that [UserRegister.validate_email] returns is a
    valid address [local@domain.tld] over the three sets of the pattern:
    ASCII only, with no white space and no final newline. *)
Theorem registered_email_is_valid_address (v w : str) :
  UserRegister.validate_email v = Ok w ->
  valid_email w /\ w = strip (lower v)
  /\ (forall c, In c w -> is_ascii c = true /\ isspace c = false).
Proof.
  unfold UserRegister.validate_email. cbv zeta.
  destruct (re_match email_pattern (strip (lower v))) eqn:Hm; [|discriminate].
  intros [= <-]. apply email_pattern_spec in Hm as (e & He & Hs).
  assert (Hw : strip (lower v) = e).
  { destruct Hs as [Hs | Hs]; [assumption|].
    apply strip_last in Hs. discriminate. }
  rewrite Hw. split; [assumption|]. split; [reflexivity|].
  intros c Hc. now apply (valid_email_char_plain e c He).
Qed.

(** X9. [PasswordReset.validate_email] accepts exactly the valid
    addresses and the valid addresses followed by one newline, and
    returns the input with its ASCII capitals lowered: it strips
    nothing, so a final newline stays in the result. *)
Theorem password_reset_email_spec :
  forall v w,
    PasswordReset.validate_email v = Ok w <->
    (exists e, valid_email e /\ (v = e \/ v = e ++ [0x0A%N]))
    /\ w = List.map ascii_lower v.
Proof.
  intros v w. unfold PasswordReset.validate_email.
  destruct (re_match email_pattern v) eqn:Hm; simpl.
  - rewrite (lower_ascii v (email_match_ascii v Hm)).
    apply email_pattern_spec in Hm. split.
    + intros [= <-]. auto.
    + intros [_ ->]. reflexivity.
  - split; [discriminate|]. intros [He _].
    apply email_pattern_spec in He. congruence.
Qed.

(** X10. Whatever the password-reset form accepts, registration and
    login accept too, and they return the stripped form of what the
    reset form returns, which is that form itself or that form followed
    by one newline. *)
Theorem reset_email_accepted_by_registration (v w : str) :
  PasswordReset.validate_email v = Ok w ->
  UserRegister.validate_email v = Ok (strip w)
  /\ UserLogin.validate_email v = Ok (strip w)
  /\ (w = strip w \/ w = strip w ++ [0x0A%N]).
Proof.
  unfold PasswordReset.validate_email, UserRegister.validate_email,
    UserLogin.validate_email. cbv zeta.
  destruct (re_match email_pattern v) eqn:Hm; [|discriminate].
  simpl. intros [= <-].
  rewrite (lower_ascii v (email_match_ascii v Hm)).
  destruct (email_match_lower_strip v Hm) as (e & He & Hv & Hstrip).
  rewrite Hstrip.
  replace (re_match email_pattern (List.map ascii_lower e)) with true.
  - simpl. split; [reflexivity|]. split; [reflexivity|].
    destruct Hv as [-> | ->]; [now left | right; now rewrite List.map_app].
  - symmetry. apply email_pattern_spec. exists (List.map ascii_lower e).
    split; [now apply valid_email_lower | now left].
Qed.
End AddressFacts.

Lemma registered_email_is_valid_address_witness :
  UserRegister.validate_email (ud:=ascii_only_data) (py " A.b@C.co ")
  = Ok (py "a.b@c.co")
  /\ valid_email (ud:=ascii_only_data) (py "a.b@c.co").
Proof.
  split; [reflexivity|].
  exact (proj1 (@registered_email_is_valid_address ascii_only_data
                  (py " A.b@C.co ") (py "a.b@c.co") eq_refl)).
Defined.

Lemma reset_email_accepted_by_registration_witness :
  PasswordReset.validate_email (ud:=ascii_only_data) (py "A.b@C.co" ++ [0x0A%N])
  = Ok (py "a.b@c.co" ++ [0x0A%N])
  /\ UserRegister.validate_email (ud:=ascii_only_data) (py "A.b@C.co" ++ [0x0A%N])
     = Ok (py "a.b@c.co").
Proof.
  split; [reflexivity|].
  exact (proj1 (@reset_email_accepted_by_registration ascii_only_data
                  (py "A.b@C.co" ++ [0x0A%N]) (py "a.b@c.co" ++ [0x0A%N])
                  eq_refl)).
Defined.

(** ** Login, credentials and symbols *)

Lemma ascii_upper_lower (c : cp) : ascii_upper (ascii_lower c) = ascii_upper c.
Proof.
  unfold ascii_upper, ascii_lower, between.
  change (ord "A") with 65%N. change (ord "Z") with 90%N.
  change (ord "a") with 97%N. change (ord "z") with 122%N.
  destruct (N.leb_spec 65 c), (N.leb_spec c 90); simpl;
    repeat match goal with
    | |- context [(?a <=? ?b)%N] => destruct (N.leb_spec a b); simpl
    end; try reflexivity; lia.
Qed.

Lemma ascii_upper_idempotent (c : cp) :
  ascii_upper (ascii_upper c) = ascii_upper c.
Proof.
  unfold ascii_upper, between.
  change (ord "a") with 97%N. change (ord "z") with 122%N.
  destruct (N.leb_spec 97 c), (N.leb_spec c 122); simpl;
    repeat match goal with
    | |- context [(?a <=? ?b)%N] => destruct (N.leb_spec a b); simpl
    end; try reflexivity; lia.
Qed.

Lemma ascii_case_stays_ascii (c : cp) :
  is_ascii c = true ->
  is_ascii (ascii_lower c) = true /\ is_ascii (ascii_upper c) = true.
Proof.
  intros Hc.
  assert (Hall : forallb (fun c => is_ascii (ascii_lower c)
                                   && is_ascii (ascii_upper c))
                   ascii_range = true) by (vm_compute; reflexivity).
  pose proof (ascii_forall _ Hall c Hc) as Hok. cbv beta in Hok.
  now apply andb_true_iff in Hok.
Qed.

Lemma upper_letter_fixed (c : cp) :
  upper_letter c = true -> is_ascii c = true /\ ascii_upper c = c.
Proof.
  unfold upper_letter, is_ascii, ascii_upper, between.
  change (ord "A") with 65%N. change (ord "Z") with 90%N.
  change (ord "a") with 97%N. change (ord "z") with 122%N.
  rewrite andb_true_iff, !N.leb_le, N.ltb_lt. intros [Hlo Hhi].
  split; [lia|].
  destruct (N.leb_spec 97 c); simpl; [lia | reflexivity].
Qed.

Section Normalisation.
Context {ud : UnicodeData}.

(** A string of ASCII capitals is its own upper case. *)
Lemma upper_capitals (w : str) :
  (forall c, In c w -> upper_letter c = true) -> upper w = w.
Proof.
  induction w as [|c w IH]; intros Hall; [reflexivity|].
  unfold upper. simpl.
  destruct (upper_letter_fixed c (Hall c (or_introl eq_refl))) as [Ha Hc].
  unfold toupper_full at 1. rewrite Ha, Hc. simpl. f_equal.
  apply IH. intros x Hx. apply Hall. now right.
Qed.

(** X4. Login accepts what registration accepted, with the same
    normalised values: an email that [UserRegister.validate_email]
    returns is what [UserLogin.validate_email] returns for the same
    input, and a password registration accepts is accepted by login
    unchanged.  Login itself accepts exactly the passwords of 1 to 128
    characters, so it also lets through passwords that registration
    rejects as weak or too short. *)
Theorem login_accepts_registered_credentials :
  (forall v w,
     UserRegister.validate_email v = Ok w -> UserLogin.validate_email v = Ok w)
  /\ (forall v w,
        UserRegister.validate_password v = Ok w ->
        UserLogin.validate_password v = Ok w)
  /\ (forall v w,
        UserLogin.validate_password v = Ok w <-> w = v /\ 1 <= length v <= 128)
  /\ (forall v,
        1 <= length v < 6 ->
        UserLogin.validate_password v = Ok v
        /\ UserRegister.validate_password v = Raise Password_too_short).
Proof.
  split; [|split; [|split]].
  - intros v w. unfold UserRegister.validate_email, UserLogin.validate_email.
    cbv zeta. destruct (re_match _ _); simpl; [auto | discriminate].
  - intros v w. unfold UserRegister.validate_password, UserLogin.validate_password.
    destruct (Nat.ltb_spec (length v) 6); [discriminate|].
    destruct (Nat.ltb_spec 128 (length v)); [discriminate|].
    destruct (_ || _); [discriminate|]. intros [= <-].
    destruct (Nat.ltb_spec (length v) 1); [lia | reflexivity].
  - intros v w. unfold UserLogin.validate_password.
    destruct (Nat.ltb_spec (length v) 1);
      [|destruct (Nat.ltb_spec 128 (length v))];
      (split; [intros [= <-] | intros [-> Hlen]]); try lia; auto.
  - intros v Hlen.
    unfold UserRegister.validate_password, UserLogin.validate_password.
    destruct (Nat.ltb_spec (length v) 1); [lia|].
    destruct (Nat.ltb_spec 128 (length v)); [lia|].
    destruct (Nat.ltb_spec (length v) 6); [auto | lia].
Qed.

(** X11. [validate_api_credentials] looks at the stripped text only:
    white space around a credential changes nothing, the result for a
    string is the result for its stripped form, and an accepted
    credential is accepted again unchanged. *)
Theorem api_credentials_ignore_padding :
  (forall l v r,
     forallb isspace l = true -> forallb isspace r = true ->
     APIKeysUpdate.validate_api_credentials (l ++ v ++ r)
     = APIKeysUpdate.validate_api_credentials v)
  /\ (forall v,
        APIKeysUpdate.validate_api_credentials (strip v)
        = APIKeysUpdate.validate_api_credentials v)
  /\ (forall v w,
        APIKeysUpdate.validate_api_credentials v = Ok w ->
        APIKeysUpdate.validate_api_credentials w = Ok w).
Proof.
  assert (Hstrip : forall v,
             APIKeysUpdate.validate_api_credentials (strip v)
             = APIKeysUpdate.validate_api_credentials v).
  { intros v. unfold APIKeysUpdate.validate_api_credentials.
    now rewrite strip_strip. }
  split; [|split; [exact Hstrip|]].
  - intros l v r Hl Hr. unfold APIKeysUpdate.validate_api_credentials.
    now rewrite strip_padding.
  - intros v w Hok. assert (Hw : w = strip v).
    { revert Hok. unfold APIKeysUpdate.validate_api_credentials. cbv zeta.
      destruct (_ || _); [discriminate|].
      destruct (negb _); [discriminate|]. now intros [= <-]. }
    rewrite Hw, Hstrip. now rewrite <- Hw.
Qed.

(** X12. [validate_symbol] returns a fixed point: an accepted symbol is
    accepted again unchanged.  On ASCII input the validator does not see
    the case of the letters: the lower-cased and the upper-cased input
    get the result of the input itself. *)
Theorem symbol_normal_form :
  (forall v w,
     BotControl.validate_symbol (Some v) = Ok (Some w) ->
     BotControl.validate_symbol (Some w) = Ok (Some w))
  /\ (forall v,
        forallb is_ascii v = true ->
        BotControl.validate_symbol (Some (lower v))
        = BotControl.validate_symbol (Some v)
        /\ BotControl.validate_symbol (Some (upper v))
           = BotControl.validate_symbol (Some v)).
Proof.
  split.
  - intros v w Hok.
    assert (Hw : w = strip (upper v)
                 /\ re_match symbol_pattern (strip (upper v)) = true).
    { revert Hok. unfold BotControl.validate_symbol. cbv zeta.
      destruct (_ || _); [discriminate|].
      destruct (re_match symbol_pattern (strip (upper v))); [|discriminate].
      intros [= <-]. auto. }
    destruct Hw as [Hw Hm].
    assert (Hup : upper w = w).
    { rewrite <- Hw in Hm.
      apply symbol_pattern_spec in Hm as (base & Hbase & _ & Hs).
      assert (Hs' : w = base ++ py "USDT").
      { destruct Hs as [Hs | Hs]; [assumption|]. exfalso.
        rewrite Hw in Hs.
        change (base ++ py "USDT" ++ [0x0A%N])
          with (base ++ py "USD" ++ [ord "T"] ++ [0x0A%N]) in Hs.
        rewrite !app_assoc in Hs. apply strip_last in Hs. discriminate. }
      assert (Hall : forall c, In c w -> upper_letter c = true).
      { rewrite Hs'. rewrite forallb_forall in Hbase. intros c Hc.
        apply in_app_or in Hc as [Hc | Hc]; [auto|].
        simpl in Hc. repeat (destruct Hc as [<- | Hc]; [reflexivity|]).
        destruct Hc. }
      now apply upper_capitals. }
    assert (Hs : strip w = w) by (rewrite Hw; apply strip_strip).
    unfold BotControl.validate_symbol in *. cbv zeta in *.
    rewrite Hup, Hs. subst w. exact Hok.
  - intros v Hv.
    assert (Hl : upper (lower v) = upper v).
    { rewrite (lower_ascii v Hv). rewrite !upper_ascii; auto.
      - rewrite List.map_map. apply List.map_ext. apply ascii_upper_lower.
      - apply forallb_forall. intros c Hc.
        apply in_map_iff in Hc as (x & <- & Hx).
        rewrite forallb_forall in Hv.
        destruct (ascii_case_stays_ascii x (Hv x Hx)); assumption. }
    assert (Hu : upper (upper v) = upper v).
    { rewrite !(upper_ascii v Hv). rewrite upper_ascii.
      - rewrite List.map_map. apply List.map_ext. apply ascii_upper_idempotent.
      - apply forallb_forall. intros c Hc.
        apply in_map_iff in Hc as (x & <- & Hx).
        rewrite forallb_forall in Hv.
        destruct (ascii_case_stays_ascii x (Hv x Hx)); assumption. }
    unfold BotControl.validate_symbol. now rewrite Hl, Hu.
Qed.
End Normalisation.

(** ** The two password validators *)

Section PasswordOrder.
Context {ud : UnicodeData}.

(** X2. The registration and the reset-confirmation password validators
    return the same result on every input but one kind: a password of
    more than 128 characters that lacks a letter or lacks a digit is
    rejected as too long by the first and as weak by the second,
    because the two check in a different order. *)
Theorem password_validators_differ_only_on_long_weak (v : str) :
  let weak := ~ (exists c, In c v /\ ascii_letter c = true)
              \/ ~ (exists c, In c v /\ isdecimal c = true) in
  (128 < length v /\ weak ->
   UserRegister.validate_password v = Raise Password_too_long
   /\ PasswordResetConfirm.validate_password v = Raise Password_weak)
  /\ (~ (128 < length v /\ weak) ->
      UserRegister.validate_password v
      = PasswordResetConfirm.validate_password v).
Proof.
  cbv zeta. rewrite <- search_letter_spec, <- search_digit_spec.
  unfold UserRegister.validate_password, PasswordResetConfirm.validate_password.
  destruct (Nat.ltb_spec (length v) 6), (Nat.ltb_spec 128 (length v));
    destruct (re_search letter_pattern v), (re_search digit_pattern v);
    simpl; split; try reflexivity; try lia;
    try (intros [_ [Hw | Hw]]; exfalso; apply Hw; reflexivity);
    try (intros; split; reflexivity);
    try (intros Hn; exfalso; apply Hn; split; [lia|]; (left + right);
         discriminate).
Qed.
End PasswordOrder.

(** ** Construction of [BotSettings] *)

Lemma collect_built {A B} (f : outcome (A -> B)) (x : outcome A) (b : B) :
  collect f x = Built b -> exists g a, f = Built g /\ x = Built a /\ b = g a.
Proof.
  destruct f as [g|e], x as [a|e']; simpl; try discriminate.
  intros [= <-]. eauto.
Qed.

(** A field that is built holds its default when nothing was given, and
    otherwise the value its validator returned. *)
Lemma field_outcome_built {A} name (validate : A -> result A) default given a :
  field_outcome name validate default given = Built a ->
  (given = None /\ a = default) \/ (exists v, given = Some v /\ validate v = Ok a).
Proof.
  unfold field_outcome. destruct given as [v|].
  - destruct (validate v) eqn:Hv; [|discriminate]. intros [= <-]. eauto.
  - intros [= <-]. auto.
Qed.

(** X13. Every object that [BotSettings(...)] builds, whichever
    arguments are given, has its leverage between 1 and 20, its
    timeframe among the five listed, and each of its three float fields
    NaN or inside its interval: a value that is given passed its
    validator and is stored as given, and the default of a field left
    out is inside the bounds too.  With no argument the object holds the
    five defaults. *)
Theorem bot_settings_built_within_bounds
    (size : option float) (lev : option Z) (stop take : option float)
    (frame : option str) (s : BotSettings.t) :
  BotSettings.init size lev stop take frame = Built s ->
  ((1 <= BotSettings.leverage s <= 20)%Z
   /\ In (BotSettings.timeframe s) BotSettings.timeframes
   /\ BotSettings.nan_or_between 10 1000 (BotSettings.order_size_usdt s)
   /\ BotSettings.nan_or_between 1 10 (BotSettings.stop_loss_percent s)
   /\ BotSettings.nan_or_between 2 20 (BotSettings.take_profit_percent s))
  /\ (forall v, size = Some v -> BotSettings.order_size_usdt s = v)
  /\ (forall v, lev = Some v -> BotSettings.leverage s = v)
  /\ (forall v, stop = Some v -> BotSettings.stop_loss_percent s = v)
  /\ (forall v, take = Some v -> BotSettings.take_profit_percent s = v)
  /\ (forall v, frame = Some v -> BotSettings.timeframe s = v)
  /\ BotSettings.init None None None None None = Built BotSettings.default.
Proof.
  unfold BotSettings.init. intros Hs.
  apply collect_built in Hs as (g5 & fr & Hs & Hfr & ->).
  apply collect_built in Hs as (g4 & tk & Hs & Htk & ->).
  apply collect_built in Hs as (g3 & st & Hs & Hst & ->).
  apply collect_built in Hs as (g2 & lv & Hs & Hlv & ->).
  apply collect_built in Hs as (g1 & sz & Hs & Hsz & ->).
  injection Hs as <-. simpl.
  apply field_outcome_built in Hfr, Htk, Hst, Hlv, Hsz.
  assert (Hsize : BotSettings.nan_or_between 10 1000 sz
                  /\ forall v, size = Some v -> sz = v).
  { destruct Hsz as [[-> ->] | (v & -> & Hv)].
    - split; [right; split; reflexivity | discriminate].
    - apply range_validator_spec in Hv as [-> Hv]; try literal_not_nan.
      split; [exact Hv | now intros ? [= <-]]. }
  assert (Hstop : BotSettings.nan_or_between 1 10 st
                  /\ forall v, stop = Some v -> st = v).
  { destruct Hst as [[-> ->] | (v & -> & Hv)].
    - split; [right; split; reflexivity | discriminate].
    - apply range_validator_spec in Hv as [-> Hv]; try literal_not_nan.
      split; [exact Hv | now intros ? [= <-]]. }
  assert (Htake : BotSettings.nan_or_between 2 20 tk
                  /\ forall v, take = Some v -> tk = v).
  { destruct Htk as [[-> ->] | (v & -> & Hv)].
    - split; [right; split; reflexivity | discriminate].
    - apply range_validator_spec in Hv as [-> Hv]; try literal_not_nan.
      split; [exact Hv | now intros ? [= <-]]. }
  assert (Hlev : (1 <= lv <= 20)%Z /\ forall v, lev = Some v -> lv = v).
  { destruct Hlv as [[-> ->] | (v & -> & Hv)].
    - split; [simpl; lia | discriminate].
    - unfold BotSettings.validate_leverage in Hv.
      destruct (Z.ltb_spec v 1); [discriminate|].
      destruct (Z.ltb_spec 20 v); [discriminate|].
      injection Hv as <-. split; [lia | now intros ? [= <-]]. }
  assert (Hframe : In fr BotSettings.timeframes
                   /\ forall v, frame = Some v -> fr = v).
  { destruct Hfr as [[-> ->] | (v & -> & Hv)].
    - split; [simpl; auto | discriminate].
    - unfold BotSettings.validate_timeframe in Hv.
      destruct (str_in v BotSettings.timeframes) eqn:Hin; [|discriminate].
      injection Hv as <-. apply str_in_In in Hin.
      split; [assumption | now intros ? [= <-]]. }
  destruct Hsize, Hstop, Htake, Hlev, Hframe. auto 15.
Qed.

Lemma bot_settings_built_within_bounds_witness :
  BotSettings.init (Some (float_of_Z 100)) (Some 20%Z) None None (Some (py "1h"))
  = Built {| BotSettings.order_size_usdt := float_of_Z 100;
             BotSettings.leverage := 20;
             BotSettings.stop_loss_percent := float_of_Z 4;
             BotSettings.take_profit_percent := float_of_Z 8;
             BotSettings.timeframe := py "1h" |}
  /\ BotSettings.nan_or_between 10 1000 (float_of_Z 100).
Proof.
  split; [reflexivity|].
  exact (proj1 (proj2 (proj2 (proj1
    (bot_settings_built_within_bounds
       (Some (float_of_Z 100)) (Some 20%Z) None None (Some (py "1h")) _
       eq_refl))))).
Defined.

(** ** Enumerations and [UserData] *)

(** X14. In each of the three enumerations the members have distinct
    values, looking a member up by its value gives the member back, and
    a lookup that succeeds was given the value of the member it
    returns.  The [role] and [subscription_status] fields of [UserData]
    accept exactly the strings such a lookup finds. *)
Theorem enum_value_round_trip :
  (forall r, enum_of_value UserRole_members UserRole_value (UserRole_value r)
             = Some r)
  /\ (forall s, enum_of_value SubscriptionStatus_members SubscriptionStatus_value
                  (SubscriptionStatus_value s) = Some s)
  /\ (forall s, enum_of_value BotStatus_members BotStatus_value
                  (BotStatus_value s) = Some s)
  /\ (forall v r, enum_of_value UserRole_members UserRole_value v = Some r ->
                  UserRole_value r = v)
  /\ (forall v s, enum_of_value SubscriptionStatus_members
                    SubscriptionStatus_value v = Some s ->
                  SubscriptionStatus_value s = v)
  /\ (forall v s, enum_of_value BotStatus_members BotStatus_value v = Some s ->
                  BotStatus_value s = v)
  /\ (forall name v r,
        as_role name (RStr v) = Valid r <->
        enum_of_value UserRole_members UserRole_value v = Some r)
  /\ (forall name v s,
        as_subscription_status name (RStr v) = Valid s <->
        enum_of_value SubscriptionStatus_members SubscriptionStatus_value v
        = Some s).
Proof.
  assert (Hfind : forall A (members : list A) value v m,
             enum_of_value members value v = Some m -> value m = v).
  { intros A members value v m Hf. unfold enum_of_value in Hf.
    apply find_some in Hf as [_ Heq]. now apply str_eqb_eq. }
  assert (Hsym : forall a b, str_eqb a b = str_eqb b a).
  { intros a b. destruct (str_eqb a b) eqn:Hab, (str_eqb b a) eqn:Hba;
      try reflexivity.
    - apply str_eqb_eq in Hab. subst. rewrite (proj2 (str_eqb_eq b b) eq_refl) in Hba.
      discriminate.
    - apply str_eqb_eq in Hba. subst. rewrite (proj2 (str_eqb_eq a a) eq_refl) in Hab.
      discriminate. }
  split; [intros []; reflexivity|].
  split; [intros []; reflexivity|].
  split; [intros []; reflexivity|].
  split; [intros v r; apply Hfind|].
  split; [intros v s; apply Hfind|].
  split; [intros v s; apply Hfind|].
  split.
  - intros name v r. unfold as_role, enum_of_value, UserRole_members.
    cbn [List.find UserRole_value].
    rewrite (Hsym (py "user") v), (Hsym (py "admin") v).
    destruct (str_eqb v (py "user")); [split; intros [= <-]; reflexivity|].
    destruct (str_eqb v (py "admin")); [split; intros [= <-]; reflexivity|].
    split; discriminate.
  - intros name v s.
    unfold as_subscription_status, enum_of_value, SubscriptionStatus_members.
    cbn [List.find SubscriptionStatus_value].
    rewrite (Hsym (py "trial") v), (Hsym (py "active") v),
      (Hsym (py "expired") v), (Hsym (py "cancelled") v).
    destruct (str_eqb v (py "trial")); [split; intros [= <-]; reflexivity|].
    destruct (str_eqb v (py "active")); [split; intros [= <-]; reflexivity|].
    destruct (str_eqb v (py "expired")); [split; intros [= <-]; reflexivity|].
    destruct (str_eqb v (py "cancelled")); [split; intros [= <-]; reflexivity|].
    split; discriminate.
Qed.







